(** * OpenTelemetry collector: service configuration validation and
      component factories

    A shallow embedding of four Go sources of the collector:
    - package [service], [Config.Validate] and [Config.validateService]
      (the configuration validator);
    - package [component], [NewReceiverFactory] with its options and the
      three [Create*ReceiverFunc] adapter methods (the receiver factory);
    - package [component], [NewExtensionFactory] and
      [CreateExtensionFunc.CreateExtension] (the extension factory);
    - package [auth], [NewClient] with its options and the methods of
      [defaultClient] (the client authenticator).

    Go values are embedded as follows.
    - A Go map is a [gmap]; [m[k]] on a missing key is the zero value of
      the value type; [for k, v := range m] visits every entry once, in an
      order the language leaves unspecified: the order is an explicit
      argument of the embedded function ([rangeOrder]).
    - An interface value, a pointer or a function value is an [option]:
      [None] is [nil]; calling a nil function value panics.
    - [error] values keep the format string and the operands of the
      [fmt.Errorf] call that built them.
    - Statements run in a state monad over the [world] (the [Config] the
      receiver pointer designates, and what was printed on standard
      output), with early exit for [return] and for a run-time panic. *)

From stdpp Require Import gmap strings list fin_maps.

Set Default Proof Using "Type".

(** ** Go runtime: identifiers, errors, outcomes *)

Module component.

(** [component.Type] is a string type. *)
Definition Type_ := string.

(** Modelled from the spec: [component.ID] is declared outside the given
    sources; it is the pair of a component type and an optional name (the
    empty string when there is none), and [Type()] reads the type. *)
Record ID : Type := NewIDWithName { typeVal : Type_; nameVal : string }.

Definition ID_Type (id : ID) : Type_ := typeVal id.

#[global] Instance ID_eq_dec : EqDecision ID.
Proof. solve_decision. Defined.

#[global] Instance ID_countable : Countable ID :=
  inj_countable' (λ id, (typeVal id, nameVal id))
                 (λ p, NewIDWithName p.1 p.2)
                 (λ id, match id with NewIDWithName _ _ => eq_refl end).

Definition NewID (t : Type_) : ID := NewIDWithName t EmptyString.

(** Modelled from the spec: the three signal kinds, [DataTypeTraces],
    [DataTypeMetrics] and [DataTypeLogs], are constants of type [Type]
    declared outside the given sources. *)
Definition DataTypeTraces : Type_ := "traces".
Definition DataTypeMetrics : Type_ := "metrics".
Definition DataTypeLogs : Type_ := "logs".

End component.

Import component.

(** An operand of a [fmt] verb. *)
Inductive fmtArg (E : Type) : Type :=
  | ArgID (id : ID)
  | ArgType (t : Type_)
  | ArgErr (e : E).
Arguments ArgID {E} id.
Arguments ArgType {E} t.
Arguments ArgErr {E} e.

(** A non-nil Go [error]: built by [errors.New] from a text, or by
    [fmt.Errorf] from a format and its operands (an operand of [%w] is the
    wrapped error). The [error] interface value is [option error]. *)
#[warnings="-register-all"]
Inductive error : Type :=
  | errors_New (text : string)
  | fmt_Errorf (format : string) (args : list (fmtArg error)).

(** A line written by [fmt.Printf]: the format and its operands. *)
Definition printed : Type := (string * list (fmtArg error))%type.

(** How a call ends: it returns its results, or the goroutine panics
    (a nil pointer dereference, a call of a nil function value). *)
Inductive outcome (R : Type) : Type :=
  | Returns (r : R)
  | Panics.
Arguments Returns {R} r.
Arguments Panics {R}.

(** [f(a)] for a function value [f]: nil is not callable. *)
Definition invoke {A B} (f : option (A → B)) (a : A) : outcome B :=
  match f with
  | Some g => Returns (g a)
  | None => Panics
  end.

Definition is_nil {V} (v : option V) : bool :=
  match v with None => true | Some _ => false end.

(** ** Statements: state, early return, panic *)

Section Statements.
Context {World R : Type}.

(** A statement of a function with results [R] goes on to the next one,
    or ends the call. *)
Inductive step (A : Type) : Type :=
  | Next (a : A)
  | Stop (o : outcome R).
Global Arguments Next {A} a.
Global Arguments Stop {A} o.

Definition stmt (A : Type) : Type := World → step A * World.

Definition skip_with {A} (a : A) : stmt A := λ w, (Next a, w).

Definition seq {A B} (m : stmt A) (k : A → stmt B) : stmt B :=
  λ w, match m w with
       | (Next a, w') => k a w'
       | (Stop o, w') => (Stop o, w')
       end.

(** [return r] *)
Definition return_ {A} (r : R) : stmt A :=
  λ w, (Stop (Returns r), w).

Definition panic {A} : stmt A := λ w, (Stop Panics, w).

(** [if cond { body }] with no else branch. *)
Definition when (cond : bool) (body : stmt unit) : stmt unit :=
  if cond then body else skip_with tt.

(** [for _, x := range xs { body }] over a slice, or over the entries of
    a map in the order [xs]; [acc] is the local state the body updates. *)
Fixpoint for_range {X S} (xs : list X) (body : X → S → stmt S) (acc : S)
  : stmt S :=
  match xs with
  | [] => skip_with acc
  | x :: xs' => seq (body x acc) (for_range xs' body)
  end.

(** [p.f] through a pointer [p]: a nil pointer panics. *)
Definition deref {A} (p : option A) : stmt A :=
  match p with
  | Some a => skip_with a
  | None => panic
  end.

(** A function body always ends in a [return]: it never yields [Next]. *)
Definition call (body : stmt Empty_set) (w : World) : outcome R * World :=
  match body w with
  | (Next a, _) => match a with end
  | (Stop o, w') => (o, w')
  end.

(** *** Reasoning about statements

    [runs_to I m s]: from every world that satisfies [I], the statement
    [m] takes the step [s] and leaves a world that satisfies [I]. *)
Definition runs_to {A} (I : World → Prop) (m : stmt A) (s : step A) : Prop :=
  ∀ w, I w → (m w).1 = s ∧ I (m w).2.

(** [checks I bad m P]: [m] tests [P]; it goes on when [P] holds and ends
    the call with an outcome in [bad] when it does not. *)
Definition checks {A} (I : World → Prop) (bad : outcome R → Prop)
    (m : stmt A) (P : Prop) : Prop :=
  (P ∧ ∃ a, runs_to I m (Next a)) ∨
  (¬ P ∧ ∃ o, bad o ∧ runs_to I m (Stop o)).

(** [decides I bad good m P]: [m] ends the call, with the outcome [good]
    when [P] holds and with an outcome in [bad] when it does not. *)
Definition decides {A} (I : World → Prop) (bad : outcome R → Prop)
    (good : outcome R) (m : stmt A) (P : Prop) : Prop :=
  (P ∧ runs_to I m (Stop good)) ∨
  (¬ P ∧ ∃ o, bad o ∧ runs_to I m (Stop o)).

(** [agree I1 I2 m1 m2]: from worlds that satisfy [I1] and [I2], the
    statements [m1] and [m2] take the same step, and leave such worlds. *)
Definition agree {A} (I1 I2 : World → Prop) (m1 m2 : stmt A) : Prop :=
  ∀ w1 w2, I1 w1 → I2 w2 →
    (m1 w1).1 = (m2 w2).1 ∧ I1 (m1 w1).2 ∧ I2 (m2 w2).2.
End Statements.
Arguments stmt World R A : clear implicits.
Arguments step R A : clear implicits.

#[global] Instance stmt_ret {World R} : MRet (stmt World R) :=
  @skip_with World R.
#[global] Instance stmt_bind {World R} : MBind (stmt World R) :=
  λ A B k m, seq m k.

(** [m[k]] for a map of interface values: the zero value is nil. *)
Definition index {K} `{Countable K} {V} (m : gmap K (option V)) (k : K)
  : option V := default None (m !! k).

(** ** Package [config]: pipelines *)

Module config.

(** Modelled from the spec: [config.Pipeline] is declared outside the
    given sources; it holds the ordered receiver, processor and exporter
    references of one pipeline ([ConfigServicePipeline] is an alias). *)
Record Pipeline : Type := {
  Receivers : list ID;
  Processors : list ID;
  Exporters : list ID
}.

End config.

(** ** Package [service]: the configuration and its validator *)

Module service.

Definition errMissingExporters : error :=
  errors_New "no enabled exporters specified in config".
Definition errMissingReceivers : error :=
  errors_New "no enabled receivers specified in config".
Definition errMissingServicePipelines : error :=
  errors_New "service must have at least one pipeline".

(** The fields of [ConfigService], reached as [cfg.Service.X]. The
    telemetry settings are of a type declared in another package. *)
Module Service.
Record ConfigService (TelemetryConfig : Type) : Type := {
  Telemetry : TelemetryConfig;
  Extensions : list ID;
  Pipelines : gmap ID (option config.Pipeline)
}.
Arguments Telemetry {_} _.
Arguments Extensions {_} _.
Arguments Pipelines {_} _.
End Service.

(** [Config]: a [component.Config] is an interface value; [ConfigImpl] is
    the type of the values that implement it, [None] is the nil
    interface. *)
Record Config (ConfigImpl TelemetryConfig : Type) : Type := {
  Receivers : gmap ID (option ConfigImpl);
  Exporters : gmap ID (option ConfigImpl);
  Processors : gmap ID (option ConfigImpl);
  Extensions : gmap ID (option ConfigImpl);
  Service : Service.ConfigService TelemetryConfig
}.
Arguments Receivers {_ _} _.
Arguments Exporters {_ _} _.
Arguments Processors {_ _} _.
Arguments Extensions {_ _} _.
Arguments Service {_ _} _.

(** What a call can read and write: the [Config] behind the receiver
    pointer [cfg], and the lines printed so far. *)
Record world (ConfigImpl TelemetryConfig : Type) : Type := {
  config_at : Config ConfigImpl TelemetryConfig;
  stdout : list printed
}.
Arguments config_at {_ _} _.
Arguments stdout {_ _} _.

(** The order in which each [range] over a map visits its entries. *)
Record rangeOrder (ConfigImpl : Type) : Type := {
  range_Receivers : list (ID * option ConfigImpl);
  range_Exporters : list (ID * option ConfigImpl);
  range_Processors : list (ID * option ConfigImpl);
  range_Extensions : list (ID * option ConfigImpl);
  range_Pipelines : list (ID * option config.Pipeline)
}.
Arguments range_Receivers {_} _.
Arguments range_Exporters {_} _.
Arguments range_Processors {_} _.
Arguments range_Extensions {_} _.
Arguments range_Pipelines {_} _.

Section Validator.
Context {ConfigImpl TelemetryConfig : Type}.

(** [component.ValidateConfig] and [telemetry.Config.Validate] are
    declared outside the given sources: both are taken as they come. *)
Variable ValidateConfig : option ConfigImpl → option error.
Variable telemetry_Validate : TelemetryConfig → option error.

Abbreviation Config := (Config ConfigImpl TelemetryConfig).
Abbreviation world := (world ConfigImpl TelemetryConfig).
Abbreviation rangeOrder := (rangeOrder ConfigImpl).

(** A [range] visits every entry of the map exactly once. *)
Definition ranges (o : rangeOrder) (cfg : Config) : Prop :=
  range_Receivers o ≡ₚ map_to_list (Receivers cfg) ∧
  range_Exporters o ≡ₚ map_to_list (Exporters cfg) ∧
  range_Processors o ≡ₚ map_to_list (Processors cfg) ∧
  range_Extensions o ≡ₚ map_to_list (Extensions cfg) ∧
  range_Pipelines o ≡ₚ map_to_list (Service.Pipelines (Service cfg)).

(** Reading through the receiver pointer, which is taken not to be
    nil: the world holds the configuration it designates. *)
Definition load : stmt world (option error) Config := λ w, (Next (config_at w), w).

(** [fmt.Printf(format, args...)] *)
Definition fmt_Printf (format : string) (args : list (fmtArg error))
  : stmt world (option error) unit :=
  λ w, (Next tt, {| config_at := config_at w;
                    stdout := stdout w ++ [(format, args)] |}).

(** The body of the loop of [validateService] over the pipelines, lines
    115-162: one iteration, for the entry [pipelineID], [pipeline] of
    [cfg.Service.Pipelines]. *)
Definition validateService_pipeline (cfg : Config) (pipelineID : ID)
    (pipeline : option config.Pipeline) : stmt world (option error) unit :=
  when (bool_decide (ID_Type pipelineID ≠ DataTypeTraces)
        && bool_decide (ID_Type pipelineID ≠ DataTypeMetrics)
        && bool_decide (ID_Type pipelineID ≠ DataTypeLogs))
    (return_ (Some (fmt_Errorf "unknown pipeline datatype %q for %v"
       [ArgType (ID_Type pipelineID); ArgID pipelineID])));;
  pipeline ← deref pipeline;
  when (bool_decide (length (config.Receivers pipeline) = 0))
    (return_ (Some (fmt_Errorf
       "pipeline %q must have at least one receiver"
       [ArgID pipelineID])));;
  for_range (config.Receivers pipeline) (λ ref _,
    when (is_nil (index (Receivers cfg) ref))
      (return_ (Some (fmt_Errorf
         "pipeline %q references receiver %q which does not exist"
         [ArgID pipelineID; ArgID ref])))) tt;;
  for_range (config.Processors pipeline) (λ ref (procSet : gmap ID bool),
    when (is_nil (index (Processors cfg) ref))
      (return_ (Some (fmt_Errorf
         "pipeline %q references processor %q which does not exist"
         [ArgID pipelineID; ArgID ref])));;
    when (bool_decide (is_Some (procSet !! ref)))
      (return_ (Some (fmt_Errorf
         "pipeline %q references processor %q multiple times"
         [ArgID pipelineID; ArgID ref])));;
    mret (<[ref := true]> procSet)) ∅;;
  when (bool_decide (length (config.Exporters pipeline) = 0))
    (return_ (Some (fmt_Errorf
       "pipeline %q must have at least one exporter"
       [ArgID pipelineID])));;
  for_range (config.Exporters pipeline) (λ ref _,
    when (is_nil (index (Exporters cfg) ref))
      (return_ (Some (fmt_Errorf
         "pipeline %q references exporter %q which does not exist"
         [ArgID pipelineID; ArgID ref])))) tt;;
  match telemetry_Validate (Service.Telemetry (Service cfg)) with
  | Some err =>
      fmt_Printf "telemetry config validation failed, %v\n" [ArgErr err]
  | None => mret tt
  end.

(** [Config.validateService], lines 98-165. No statement stores through
    [cfg], which is read once on entry. *)
Definition validateService (o : rangeOrder) : stmt world (option error) Empty_set :=
  cfg ← load;
  for_range (Service.Extensions (Service cfg)) (λ ref _,
    when (is_nil (index (Extensions cfg) ref))
      (return_ (Some (fmt_Errorf
         "service references extension %q which does not exist"
         [ArgID ref])))) tt;;
  when (bool_decide (size (Service.Pipelines (Service cfg)) = 0))
    (return_ (Some errMissingServicePipelines));;
  for_range (range_Pipelines o) (λ '(pipelineID, pipeline) _,
    validateService_pipeline cfg pipelineID pipeline) tt;;
  return_ None.

(** [Config.Validate], lines 54-96. *)
Definition Validate_body (o : rangeOrder) : stmt world (option error) Empty_set :=
  cfg ← load;
  when (bool_decide (size (Receivers cfg) = 0))
    (return_ (Some errMissingReceivers));;
  for_range (range_Receivers o) (λ '(recvID, recvCfg) _,
    match ValidateConfig recvCfg with
    | Some err => return_ (Some (fmt_Errorf
        "receiver %q has invalid configuration: %w"
        [ArgID recvID; ArgErr err]))
    | None => mret tt
    end) tt;;
  when (bool_decide (size (Exporters cfg) = 0))
    (return_ (Some errMissingExporters));;
  for_range (range_Exporters o) (λ '(expID, expCfg) _,
    match ValidateConfig expCfg with
    | Some err => return_ (Some (fmt_Errorf
        "exporter %q has invalid configuration: %w"
        [ArgID expID; ArgErr err]))
    | None => mret tt
    end) tt;;
  for_range (range_Processors o) (λ '(procID, procCfg) _,
    match ValidateConfig procCfg with
    | Some err => return_ (Some (fmt_Errorf
        "processor %q has invalid configuration: %w"
        [ArgID procID; ArgErr err]))
    | None => mret tt
    end) tt;;
  for_range (range_Extensions o) (λ '(extID, extCfg) _,
    match ValidateConfig extCfg with
    | Some err => return_ (Some (fmt_Errorf
        "extension %q has invalid configuration: %w"
        [ArgID extID; ArgErr err]))
    | None => mret tt
    end) tt;;
  validateService o.

(** A call [cfg.Validate()] in the world [w], the maps being ranged over
    in the orders [o]: the error returned (or the panic) and the world
    after the call. *)
Definition Validate (o : rangeOrder) (w : world)
  : outcome (option error) * world :=
  call (Validate_body o) w.


(** *** Validity, as the spec words it (section 3, invariants)

    A reference resolves when the top-level map holds a non-nil value
    for it. *)
Definition resolves (m : gmap ID (option ConfigImpl)) (ref : ID) : Prop :=
  is_nil (index m ref) = false.

Definition known_kind (pipelineID : ID) : Prop :=
  ID_Type pipelineID = DataTypeTraces ∨
  ID_Type pipelineID = DataTypeMetrics ∨
  ID_Type pipelineID = DataTypeLogs.

(** The references of a pipeline that is there: at least one receiver and
    one exporter, every reference resolves, no processor twice. *)
Definition references_ok (cfg : Config) (pipeline : config.Pipeline) : Prop :=
  (config.Receivers pipeline ≠ [] ∧
   Forall (resolves (Receivers cfg)) (config.Receivers pipeline)) ∧
  (Forall (resolves (Processors cfg)) (config.Processors pipeline) ∧
   NoDup (config.Processors pipeline)) ∧
  (config.Exporters pipeline ≠ [] ∧
   Forall (resolves (Exporters cfg)) (config.Exporters pipeline)).

Definition pipeline_ok (cfg : Config)
    (entry : ID * option config.Pipeline) : Prop :=
  known_kind entry.1 ∧
  ∃ pipeline, entry.2 = Some pipeline ∧ references_ok cfg pipeline.

(** Every entry passes the validation hook of its type. *)
Definition hooks_pass (entries : list (ID * option ConfigImpl)) : Prop :=
  Forall (λ entry, ValidateConfig entry.2 = None) entries.

(** The checks of [Validate] before [validateService]. *)
Definition categories_ok (cfg : Config) : Prop :=
  (size (Receivers cfg) ≠ 0 ∧ hooks_pass (map_to_list (Receivers cfg))) ∧
  (size (Exporters cfg) ≠ 0 ∧ hooks_pass (map_to_list (Exporters cfg))) ∧
  hooks_pass (map_to_list (Processors cfg)) ∧
  hooks_pass (map_to_list (Extensions cfg)).

Definition extensions_ok (cfg : Config) : Prop :=
  Forall (resolves (Extensions cfg)) (Service.Extensions (Service cfg)).

Definition config_ok (cfg : Config) : Prop :=
  categories_ok cfg ∧
  extensions_ok cfg ∧
  size (Service.Pipelines (Service cfg)) ≠ 0 ∧
  Forall (pipeline_ok cfg) (map_to_list (Service.Pipelines (Service cfg))).

(** The worlds in which the receiver pointer designates [cfg]. *)
Definition designates (cfg : Config) (w : world) : Prop := config_at w = cfg.

(** The outcomes that are not a nil error. *)
Definition refusal (o : outcome (option error)) : Prop := o ≠ Returns None.

(** Two ways for a reference to be missing from a top-level map: no
    entry under the key, or an entry whose value is nil. *)
Definition absent (m : gmap ID (option ConfigImpl)) (ref : ID) : Prop :=
  m !! ref = None.

Definition mapped_to_nil (m : gmap ID (option ConfigImpl)) (ref : ID) : Prop :=
  m !! ref = Some None.

(** A reference that does not resolve, whichever way it is missing. *)
Definition unresolved (m : gmap ID (option ConfigImpl)) (ref : ID) : Prop :=
  is_nil (index m ref) = true.

(** The entry is visited by the loop over the pipelines, and every
    pipeline visited before it is in order. *)
Definition visited_first (cfg : Config) (o : rangeOrder)
    (entry : ID * option config.Pipeline) : Prop :=
  ∃ before after,
    range_Pipelines o = before ++ entry :: after ∧
    Forall (pipeline_ok cfg) before.

(** [first_missing missing cfg o e]: the first check of [validateService]
    to fail, the pipelines being visited in the order [o], is the
    resolution of a reference that is [missing]; [e] is the error for
    it. *)
Inductive first_missing
    (missing : gmap ID (option ConfigImpl) → ID → Prop)
    (cfg : Config) (o : rangeOrder) : error → Prop :=
  | missing_extension pre ref post :
      Service.Extensions (Service cfg) = pre ++ ref :: post →
      Forall (resolves (Extensions cfg)) pre →
      missing (Extensions cfg) ref →
      first_missing missing cfg o
        (fmt_Errorf "service references extension %q which does not exist"
           [ArgID ref])
  | missing_receiver pipelineID pipeline pre ref post :
      extensions_ok cfg →
      visited_first cfg o (pipelineID, Some pipeline) →
      known_kind pipelineID →
      config.Receivers pipeline = pre ++ ref :: post →
      Forall (resolves (Receivers cfg)) pre →
      missing (Receivers cfg) ref →
      first_missing missing cfg o
        (fmt_Errorf
           "pipeline %q references receiver %q which does not exist"
           [ArgID pipelineID; ArgID ref])
  | missing_processor pipelineID pipeline pre ref post :
      extensions_ok cfg →
      visited_first cfg o (pipelineID, Some pipeline) →
      known_kind pipelineID →
      config.Receivers pipeline ≠ [] →
      Forall (resolves (Receivers cfg)) (config.Receivers pipeline) →
      config.Processors pipeline = pre ++ ref :: post →
      Forall (resolves (Processors cfg)) pre →
      NoDup pre →
      missing (Processors cfg) ref →
      first_missing missing cfg o
        (fmt_Errorf
           "pipeline %q references processor %q which does not exist"
           [ArgID pipelineID; ArgID ref])
  | missing_exporter pipelineID pipeline pre ref post :
      extensions_ok cfg →
      visited_first cfg o (pipelineID, Some pipeline) →
      known_kind pipelineID →
      config.Receivers pipeline ≠ [] →
      Forall (resolves (Receivers cfg)) (config.Receivers pipeline) →
      Forall (resolves (Processors cfg)) (config.Processors pipeline) →
      NoDup (config.Processors pipeline) →
      config.Exporters pipeline = pre ++ ref :: post →
      Forall (resolves (Exporters cfg)) pre →
      missing (Exporters cfg) ref →
      first_missing missing cfg o
        (fmt_Errorf
           "pipeline %q references exporter %q which does not exist"
           [ArgID pipelineID; ArgID ref]).

(** Some reference of the service, or of a pipeline, is [missing]. *)
Definition some_missing
    (missing : gmap ID (option ConfigImpl) → ID → Prop)
    (cfg : Config) : Prop :=
  (∃ ref, ref ∈ Service.Extensions (Service cfg) ∧
          missing (Extensions cfg) ref) ∨
  (∃ pipelineID pipeline ref,
     Service.Pipelines (Service cfg) !! pipelineID = Some (Some pipeline) ∧
     ((ref ∈ config.Receivers pipeline ∧ missing (Receivers cfg) ref) ∨
      (ref ∈ config.Processors pipeline ∧ missing (Processors cfg) ref) ∨
      (ref ∈ config.Exporters pipeline ∧ missing (Exporters cfg) ref))).

(** Two configurations that differ in their telemetry settings at most. *)
Definition alike (cfg1 cfg2 : Config) : Prop :=
  Receivers cfg1 = Receivers cfg2 ∧
  Exporters cfg1 = Exporters cfg2 ∧
  Processors cfg1 = Processors cfg2 ∧
  Extensions cfg1 = Extensions cfg2 ∧
  Service.Extensions (Service cfg1) = Service.Extensions (Service cfg2) ∧
  Service.Pipelines (Service cfg1) = Service.Pipelines (Service cfg2).

(** The world after one more line [telemetry config validation failed]. *)
Definition warned (err : error) (w : world) : world :=
  {| config_at := config_at w;
     stdout := stdout w
               ++ [("telemetry config validation failed, %v\n",
                    [ArgErr err])] |}.

End Validator.
End service.

(** ** Package [component]: receiver factories *)

Module receiver.

(** Modelled from the spec: [StabilityLevel] is declared outside the given
    sources; an enumeration whose zero value, the one a field holds when
    nothing set it, is the undefined level (the doc comments of the three
    options call it the default). *)
Inductive StabilityLevel : Type :=
  | StabilityLevelUndefined
  | StabilityLevelUnmaintained
  | StabilityLevelExperimental
  | StabilityLevelAlpha
  | StabilityLevelBeta
  | StabilityLevelStable
  | StabilityLevelDeprecated.

Section Factory.
(** The types of other packages the factory only passes along:
    [context.Context], [ReceiverCreateSettings], [Config], the three
    consumers, the three kinds of receiver, [CreateDefaultConfigFunc]. *)
Context {Ctx Settings Config Traces Metrics Logs : Type}.
Context {TracesReceiver MetricsReceiver LogsReceiver : Type}.
Context {CreateDefaultConfigFunc : Type}.

(** [ErrDataTypeIsNotSupported] is declared outside the given sources. *)
Variable ErrDataTypeIsNotSupported : error.

(** The three function types; a value of a Go function type may be nil.
    The results are the receiver (an interface value) and the error. *)
Definition CreateTracesReceiverFunc : Type :=
  option (Ctx * Settings * Config * Traces
          → option TracesReceiver * option error).
Definition CreateMetricsReceiverFunc : Type :=
  option (Ctx * Settings * Config * Metrics
          → option MetricsReceiver * option error).
Definition CreateLogsReceiverFunc : Type :=
  option (Ctx * Settings * Config * Logs
          → option LogsReceiver * option error).

(** [CreateTracesReceiverFunc.CreateTracesReceiver], lines 121-130. *)
Definition CreateTracesReceiver (f : CreateTracesReceiverFunc)
    (ctx : Ctx) (set : Settings) (cfg : Config) (nextConsumer : Traces)
  : outcome (option TracesReceiver * option error) :=
  if is_nil f then Returns (None, Some ErrDataTypeIsNotSupported)
  else invoke f (ctx, set, cfg, nextConsumer).

(** [CreateMetricsReceiverFunc.CreateMetricsReceiver], lines 136-146. *)
Definition CreateMetricsReceiver (f : CreateMetricsReceiverFunc)
    (ctx : Ctx) (set : Settings) (cfg : Config) (nextConsumer : Metrics)
  : outcome (option MetricsReceiver * option error) :=
  if is_nil f then Returns (None, Some ErrDataTypeIsNotSupported)
  else invoke f (ctx, set, cfg, nextConsumer).

(** [CreateLogsReceiverFunc.CreateLogsReceiver], lines 152-162. *)
Definition CreateLogsReceiver (f : CreateLogsReceiverFunc)
    (ctx : Ctx) (set : Settings) (cfg : Config) (nextConsumer : Logs)
  : outcome (option LogsReceiver * option error) :=
  if is_nil f then Returns (None, Some ErrDataTypeIsNotSupported)
  else invoke f (ctx, set, cfg, nextConsumer).

(** [baseFactory], as the literal in [NewReceiverFactory] fills it. *)
Record baseFactory : Type := {
  cfgType : Type_;
  createDefaultConfig : CreateDefaultConfigFunc
}.

(** [receiverFactory], lines 164-172; the three function types are
    embedded fields. *)
Record receiverFactory : Type := {
  embedded_baseFactory : baseFactory;
  embedded_CreateTracesReceiverFunc : CreateTracesReceiverFunc;
  tracesStabilityLevel : StabilityLevel;
  embedded_CreateMetricsReceiverFunc : CreateMetricsReceiverFunc;
  metricsStabilityLevel : StabilityLevel;
  embedded_CreateLogsReceiverFunc : CreateLogsReceiverFunc;
  logsStabilityLevel : StabilityLevel
}.

Definition TracesReceiverStability (r : receiverFactory) : StabilityLevel :=
  tracesStabilityLevel r.

Definition MetricsReceiverStability (r : receiverFactory) : StabilityLevel :=
  metricsStabilityLevel r.

Definition LogsReceiverStability (r : receiverFactory) : StabilityLevel :=
  logsStabilityLevel r.

(** The methods of the embedded function types, promoted to the factory:
    what a call through the [ReceiverFactory] interface runs. *)
Definition factory_CreateTracesReceiver (r : receiverFactory) :=
  CreateTracesReceiver (embedded_CreateTracesReceiverFunc r).
Definition factory_CreateMetricsReceiver (r : receiverFactory) :=
  CreateMetricsReceiver (embedded_CreateMetricsReceiverFunc r).
Definition factory_CreateLogsReceiver (r : receiverFactory) :=
  CreateLogsReceiver (embedded_CreateLogsReceiverFunc r).

(** [ReceiverFactoryOption]: its one implementation wraps a function that
    updates the factory under construction through a pointer; here it
    maps the factory before to the factory after. A nil interface value
    (on which [NewReceiverFactory] would panic) has no counterpart here:
    the statements about lists of options are about the options the
    package offers, which are never nil. *)
Definition ReceiverFactoryOption : Type := receiverFactory → receiverFactory.

Definition applyReceiverFactoryOption (opt : ReceiverFactoryOption)
    (o : receiverFactory) : receiverFactory := opt o.

(** [WithTracesReceiver], lines 187-192. *)
Definition WithTracesReceiver (createTracesReceiver : CreateTracesReceiverFunc)
    (sl : StabilityLevel) : ReceiverFactoryOption :=
  λ o, {| embedded_baseFactory := embedded_baseFactory o;
          embedded_CreateTracesReceiverFunc := createTracesReceiver;
          tracesStabilityLevel := sl;
          embedded_CreateMetricsReceiverFunc :=
            embedded_CreateMetricsReceiverFunc o;
          metricsStabilityLevel := metricsStabilityLevel o;
          embedded_CreateLogsReceiverFunc := embedded_CreateLogsReceiverFunc o;
          logsStabilityLevel := logsStabilityLevel o |}.

(** [WithMetricsReceiver], lines 195-200. *)
Definition WithMetricsReceiver
    (createMetricsReceiver : CreateMetricsReceiverFunc)
    (sl : StabilityLevel) : ReceiverFactoryOption :=
  λ o, {| embedded_baseFactory := embedded_baseFactory o;
          embedded_CreateTracesReceiverFunc :=
            embedded_CreateTracesReceiverFunc o;
          tracesStabilityLevel := tracesStabilityLevel o;
          embedded_CreateMetricsReceiverFunc := createMetricsReceiver;
          metricsStabilityLevel := sl;
          embedded_CreateLogsReceiverFunc := embedded_CreateLogsReceiverFunc o;
          logsStabilityLevel := logsStabilityLevel o |}.

(** [WithLogsReceiver], lines 203-208. *)
Definition WithLogsReceiver (createLogsReceiver : CreateLogsReceiverFunc)
    (sl : StabilityLevel) : ReceiverFactoryOption :=
  λ o, {| embedded_baseFactory := embedded_baseFactory o;
          embedded_CreateTracesReceiverFunc :=
            embedded_CreateTracesReceiverFunc o;
          tracesStabilityLevel := tracesStabilityLevel o;
          embedded_CreateMetricsReceiverFunc :=
            embedded_CreateMetricsReceiverFunc o;
          metricsStabilityLevel := metricsStabilityLevel o;
          embedded_CreateLogsReceiverFunc := createLogsReceiver;
          logsStabilityLevel := sl |}.

(** [NewReceiverFactory], lines 211-222: the fields the literal leaves out
    hold their zero values, then the options apply in turn. *)
Definition NewReceiverFactory (cfgType : Type_)
    (createDefaultConfig : CreateDefaultConfigFunc)
    (options : list ReceiverFactoryOption) : receiverFactory :=
  foldl (λ f opt, applyReceiverFactoryOption opt f)
    {| embedded_baseFactory :=
         {| cfgType := cfgType; createDefaultConfig := createDefaultConfig |};
       embedded_CreateTracesReceiverFunc := None;
       tracesStabilityLevel := StabilityLevelUndefined;
       embedded_CreateMetricsReceiverFunc := None;
       metricsStabilityLevel := StabilityLevelUndefined;
       embedded_CreateLogsReceiverFunc := None;
       logsStabilityLevel := StabilityLevelUndefined |}
    options.

End Factory.
End receiver.

(** ** Package [component]: extension factories *)

Module extension.
Section Factory.
(** The types of other packages: [context.Context],
    [ExtensionCreateSettings], [Config], [Extension] (an alias of
    [Component]), [CreateDefaultConfigFunc]. *)
Context {Ctx Settings Config Extension CreateDefaultConfigFunc : Type}.

(** [CreateExtensionFunc], line 64; a value of the type may be nil. *)
Definition CreateExtensionFunc : Type :=
  option (Ctx * Settings * Config → option Extension * option error).

(** [CreateExtensionFunc.CreateExtension], lines 67-69: it calls [f],
    with no test for nil. *)
Definition CreateExtension (f : CreateExtensionFunc)
    (ctx : Ctx) (set : Settings) (cfg : Config)
  : outcome (option Extension * option error) :=
  invoke f (ctx, set, cfg).

(** [extensionFactory], lines 82-86. *)
Record extensionFactory : Type := {
  embedded_baseFactory : @receiver.baseFactory CreateDefaultConfigFunc;
  embedded_CreateExtensionFunc : CreateExtensionFunc;
  extensionStability : receiver.StabilityLevel
}.

(** [extensionFactory.ExtensionStability], lines 88-90. *)
Definition ExtensionStability (ef : extensionFactory)
  : receiver.StabilityLevel :=
  extensionStability ef.

(** The method of the embedded function type, promoted to the factory. *)
Definition factory_CreateExtension (ef : extensionFactory) :=
  CreateExtension (embedded_CreateExtensionFunc ef).

(** [NewExtensionFactory], lines 93-106. *)
Definition NewExtensionFactory (cfgType : Type_)
    (createDefaultConfig : CreateDefaultConfigFunc)
    (createServiceExtension : CreateExtensionFunc)
    (sl : receiver.StabilityLevel) : extensionFactory :=
  {| embedded_baseFactory :=
       {| receiver.cfgType := cfgType;
          receiver.createDefaultConfig := createDefaultConfig |};
     embedded_CreateExtensionFunc := createServiceExtension;
     extensionStability := sl |}.

End Factory.
End extension.

(** ** Package [auth]: the client authenticator *)

Module auth.
Section Client.
(** The types of other packages: [context.Context], [component.Host],
    the values that implement [http.RoundTripper] and
    [credentials.PerRPCCredentials] (the interface values are options). *)
Context {Ctx Host RoundTripper PerRPCCredentials : Type}.

(** [component.StartFunc] and [component.ShutdownFunc]: function types,
    whose values may be nil. *)
Definition StartFunc : Type := option (Ctx * Host → option error).
Definition ShutdownFunc : Type := option (Ctx → option error).

(** [defaultClient], lines 237-242; the first two fields are embedded. *)
Record defaultClient : Type := {
  embedded_StartFunc : StartFunc;
  embedded_ShutdownFunc : ShutdownFunc;
  roundTripperFunc :
    option (option RoundTripper → option RoundTripper * option error);
  perRPCCredentialsFunc :
    option (unit → option PerRPCCredentials * option error)
}.

(** [ClientOption], line 235: a function on the client under
    construction, maybe nil; here it maps the client before to the
    client after. *)
Definition ClientOption : Type := option (defaultClient → defaultClient).

(** [WithClientStart], lines 246-250. *)
Definition WithClientStart (startFunc : StartFunc) : ClientOption :=
  Some (λ o, {| embedded_StartFunc := startFunc;
                embedded_ShutdownFunc := embedded_ShutdownFunc o;
                roundTripperFunc := roundTripperFunc o;
                perRPCCredentialsFunc := perRPCCredentialsFunc o |}).

(** [WithClientShutdown], lines 254-258. *)
Definition WithClientShutdown (shutdownFunc : ShutdownFunc) : ClientOption :=
  Some (λ o, {| embedded_StartFunc := embedded_StartFunc o;
                embedded_ShutdownFunc := shutdownFunc;
                roundTripperFunc := roundTripperFunc o;
                perRPCCredentialsFunc := perRPCCredentialsFunc o |}).

(** [WithClientRoundTripper], lines 262-266. *)
Definition WithClientRoundTripper
    (f : option (option RoundTripper → option RoundTripper * option error))
  : ClientOption :=
  Some (λ o, {| embedded_StartFunc := embedded_StartFunc o;
                embedded_ShutdownFunc := embedded_ShutdownFunc o;
                roundTripperFunc := f;
                perRPCCredentialsFunc := perRPCCredentialsFunc o |}).

(** [WithPerRPCCredentials], lines 270-274. *)
Definition WithPerRPCCredentials
    (f : option (unit → option PerRPCCredentials * option error))
  : ClientOption :=
  Some (λ o, {| embedded_StartFunc := embedded_StartFunc o;
                embedded_ShutdownFunc := embedded_ShutdownFunc o;
                roundTripperFunc := roundTripperFunc o;
                perRPCCredentialsFunc := f |}).

(** The loop of [NewClient] over its options, lines 285-287: each option
    is called on the client; calling a nil option panics. *)
Fixpoint apply_options (options : list ClientOption) (bc : defaultClient)
  : outcome defaultClient :=
  match options with
  | [] => Returns bc
  | op :: options' =>
      match invoke op bc with
      | Returns bc' => apply_options options' bc'
      | Panics => Panics
      end
  end.

(** [NewClient], lines 277-290: the four defaults do nothing. *)
Definition NewClient (options : list ClientOption) : outcome defaultClient :=
  apply_options options
    {| embedded_StartFunc := Some (λ _, None);
       embedded_ShutdownFunc := Some (λ _, None);
       roundTripperFunc := Some (λ base, (base, None));
       perRPCCredentialsFunc := Some (λ _, (None, None)) |}.

(** [defaultClient.Start], lines 293-295. *)
Definition Start (a : defaultClient) (ctx : Ctx) (host : Host)
  : outcome (option error) :=
  invoke (embedded_StartFunc a) (ctx, host).

(** [defaultClient.Shutdown], lines 298-300. *)
Definition Shutdown (a : defaultClient) (ctx : Ctx) : outcome (option error) :=
  invoke (embedded_ShutdownFunc a) ctx.

(** [defaultClient.RoundTripper], lines 303-305. *)
Definition RoundTripper_ (a : defaultClient) (base : option RoundTripper)
  : outcome (option RoundTripper * option error) :=
  invoke (roundTripperFunc a) base.

(** [defaultClient.PerRPCCredentials], lines 308-310. *)
Definition PerRPCCredentials_ (a : defaultClient)
  : outcome (option PerRPCCredentials * option error) :=
  invoke (perRPCCredentialsFunc a) tt.

(** The options the package offers (a [ClientOption] of another make can
    only be a function literal of a caller), each given a function that
    is not nil. *)
Inductive offered : ClientOption → Prop :=
  | offered_Start f : offered (WithClientStart (Some f))
  | offered_Shutdown f : offered (WithClientShutdown (Some f))
  | offered_RoundTripper f : offered (WithClientRoundTripper (Some f))
  | offered_PerRPCCredentials f : offered (WithPerRPCCredentials (Some f)).

(** A client whose four functions are there. *)
Definition complete (a : defaultClient) : Prop :=
  is_Some (embedded_StartFunc a) ∧ is_Some (embedded_ShutdownFunc a) ∧
  is_Some (roundTripperFunc a) ∧ is_Some (perRPCCredentialsFunc a).

End Client.
End auth.

(** ** The options of a receiver factory, by the kind of data they set *)

Section ReceiverOptions.
Context {Ctx Settings Cfg Traces Metrics Logs : Type}.
Context {TracesReceiver MetricsReceiver LogsReceiver : Type}.
Context {CreateDefaultConfigFunc : Type}.

(** [sets opt kind]: [opt] is the option the package offers for [kind]
    ([ReceiverFactoryOption] has an unexported method: a caller has no
    other options than these). *)
Inductive sets :
    @receiver.ReceiverFactoryOption Ctx Settings Cfg Traces Metrics Logs
      TracesReceiver MetricsReceiver LogsReceiver CreateDefaultConfigFunc
    → Type_ → Prop :=
  | sets_traces f sl :
      sets (receiver.WithTracesReceiver f sl) DataTypeTraces
  | sets_metrics f sl :
      sets (receiver.WithMetricsReceiver f sl) DataTypeMetrics
  | sets_logs f sl :
      sets (receiver.WithLogsReceiver f sl) DataTypeLogs.

End ReceiverOptions.

(** ** More on statements: what a statement does to the world *)

Section StatementsNever.
Context {World R : Type}.

(** [silent I m]: from a world that satisfies [I], the statement [m]
    leaves the world as it was. *)
Definition silent {A} (I : World → Prop) (m : stmt World R A) : Prop :=
  ∀ w, I w → (m w).2 = w.

(** [lands I m s f]: from a world [w] that satisfies [I], the statement
    [m] takes the step [s] and leaves the world [f w]. *)
Definition lands {A} (I : World → Prop) (m : stmt World R A)
    (s : step R A) (f : World → World) : Prop :=
  ∀ w, I w → m w = (s, f w).

(** [trails I f m]: from a world [w] that satisfies [I], the statement
    [m] leaves the world that some number of rounds of [f] make of [w]. *)
Definition trails {A} (I : World → Prop) (f : World → World)
    (m : stmt World R A) : Prop :=
  ∀ w, I w → ∃ n, (m w).2 = Nat.iter n f w.

End StatementsNever.

(** ** Configurations to run the validator on *)

Module examples.
Import service.

(** Configuration values of a component type whose hook accepts the
    first and rejects the second. *)
Inductive exampleConfig : Type := accepted | rejected.

Definition errRejected : error := errors_New "rejected".

(** A validation hook: a nil configuration has nothing to validate. *)
Definition ValidateConfig (c : option exampleConfig) : option error :=
  match c with
  | Some rejected => Some errRejected
  | Some accepted | None => None
  end.

(** Telemetry settings: whether they are valid. *)
Definition errTelemetry : error := errors_New "invalid telemetry".

Definition telemetry_Validate (valid : bool) : option error :=
  if valid then None else Some errTelemetry.

Definition otlp : ID := NewID "otlp".
Definition jaeger : ID := NewID "jaeger".
Definition batch : ID := NewID "batch".
Definition zpages : ID := NewID "zpages".
Definition traces : ID := NewID "traces".
Definition metrics : ID := NewID "metrics".
Definition profiles : ID := NewID "profiles".

(** A pipeline, there. *)
Definition pipeline (receivers processors exporters : list ID)
  : option config.Pipeline :=
  Some {| config.Receivers := receivers;
          config.Processors := processors;
          config.Exporters := exporters |}.

Definition exampleWorld : Type := world exampleConfig bool.

(** The world of a call on a configuration with the given categories,
    service extensions and pipelines, valid telemetry settings, nothing
    printed yet. *)
Definition configured
    (receivers exporters processors extensions
       : list (ID * option exampleConfig))
    (service_extensions : list ID)
    (pipelines : list (ID * option config.Pipeline)) : exampleWorld :=
  {| config_at :=
       {| Receivers := list_to_map receivers;
          Exporters := list_to_map exporters;
          Processors := list_to_map processors;
          Extensions := list_to_map extensions;
          Service :=
            {| Service.Telemetry := true;
               Service.Extensions := service_extensions;
               Service.Pipelines := list_to_map pipelines |} |};
     stdout := [] |}.

(** The order in which the maps list their entries. *)
Definition listed (w : exampleWorld) : rangeOrder exampleConfig :=
  {| range_Receivers := map_to_list (Receivers (config_at w));
     range_Exporters := map_to_list (Exporters (config_at w));
     range_Processors := map_to_list (Processors (config_at w));
     range_Extensions := map_to_list (Extensions (config_at w));
     range_Pipelines :=
       map_to_list (Service.Pipelines (Service (config_at w))) |}.

(** The same with the receivers in another order. *)
Definition receivers_in (order : list (ID * option exampleConfig))
    (w : exampleWorld) : rangeOrder exampleConfig :=
  {| range_Receivers := order;
     range_Exporters := map_to_list (Exporters (config_at w));
     range_Processors := map_to_list (Processors (config_at w));
     range_Extensions := map_to_list (Extensions (config_at w));
     range_Pipelines :=
       map_to_list (Service.Pipelines (Service (config_at w))) |}.

(** The same with the pipelines in another order. *)
Definition pipelines_in (order : list (ID * option config.Pipeline))
    (w : exampleWorld) : rangeOrder exampleConfig :=
  {| range_Receivers := map_to_list (Receivers (config_at w));
     range_Exporters := map_to_list (Exporters (config_at w));
     range_Processors := map_to_list (Processors (config_at w));
     range_Extensions := map_to_list (Extensions (config_at w));
     range_Pipelines := order |}.

Definition Validate (o : rangeOrder exampleConfig) (w : exampleWorld)
  : outcome (option error) * exampleWorld :=
  service.Validate ValidateConfig telemetry_Validate o w.

(** One receiver, one processor, one exporter, one extension, one traces
    pipeline through them: in order. *)
Definition in_order : exampleWorld :=
  configured [(otlp, Some accepted)] [(otlp, Some accepted)]
    [(batch, Some accepted)] [(zpages, Some accepted)] [zpages]
    [(traces, pipeline [otlp] [batch] [otlp])].

(** Nothing configured at all. *)
Definition nothing : exampleWorld := configured [] [] [] [] [] [].

(** The first example of the spec: a receiver, no exporter, a pipeline. *)
Definition no_exporter : exampleWorld :=
  configured [(otlp, Some accepted)] [] [] [] []
    [(traces, pipeline [otlp] [] [otlp])].

(** The categories in order, no pipeline. *)
Definition no_pipeline : exampleWorld :=
  configured [(otlp, Some accepted)] [(otlp, Some accepted)] [] [] [] [].

(** The second example of the spec: the processor twice in the pipeline. *)
Definition twice : exampleWorld :=
  configured [(otlp, Some accepted)] [(otlp, Some accepted)]
    [(batch, Some accepted)] [] []
    [(traces, pipeline [otlp] [batch; batch] [otlp])].

(** The third example of the spec: a pipeline of kind profiles. *)
Definition of_profiles : exampleWorld :=
  configured [(otlp, Some accepted)] [(otlp, Some accepted)] [] [] []
    [(profiles, pipeline [otlp] [] [otlp])].

(** The same world with other telemetry settings. *)
Definition with_telemetry (valid : bool) (w : exampleWorld) : exampleWorld :=
  {| config_at :=
       {| Receivers := Receivers (config_at w);
          Exporters := Exporters (config_at w);
          Processors := Processors (config_at w);
          Extensions := Extensions (config_at w);
          Service :=
            {| Service.Telemetry := valid;
               Service.Extensions :=
                 Service.Extensions (Service (config_at w));
               Service.Pipelines :=
                 Service.Pipelines (Service (config_at w)) |} |};
     stdout := stdout w |}.

(** A receiver whose hook fails, and no exporter. *)
Definition rejected_receiver : exampleWorld :=
  configured [(otlp, Some rejected)] [] [] [] []
    [(traces, pipeline [otlp] [] [otlp])].

(** Two receivers whose hooks fail. *)
Definition two_rejected : exampleWorld :=
  configured [(otlp, Some rejected); (jaeger, Some rejected)]
    [(otlp, Some accepted)] [] [] []
    [(traces, pipeline [otlp] [] [otlp])].

(** No pipeline, and the service names an extension that is not
    configured. *)
Definition no_pipeline_no_extension : exampleWorld :=
  configured [(otlp, Some accepted)] [(otlp, Some accepted)] [] []
    [zpages] [].

(** A pipeline of kind profiles, and the service names an extension that
    is not configured. *)
Definition of_profiles_no_extension : exampleWorld :=
  configured [(otlp, Some accepted)] [(otlp, Some accepted)] [] []
    [zpages] [(profiles, pipeline [otlp] [] [otlp])].

(** A pipeline of kind profiles and a traces pipeline without
    receivers. *)
Definition of_profiles_and_empty : exampleWorld :=
  configured [(otlp, Some accepted)] [(otlp, Some accepted)] [] [] []
    [(profiles, pipeline [otlp] [] [otlp]); (traces, pipeline [] [] [])].

(** The processor twice in the pipeline, and not configured. *)
Definition twice_absent : exampleWorld :=
  configured [(otlp, Some accepted)] [(otlp, Some accepted)] [] [] []
    [(traces, pipeline [otlp] [batch; batch] [otlp])].

(** The processor twice in the pipeline, whose exporters are missing. *)
Definition twice_no_exporter : exampleWorld :=
  configured [(otlp, Some accepted)] [(otlp, Some accepted)]
    [(batch, Some accepted)] [] []
    [(traces, pipeline [otlp] [batch; batch] [])].

(** A reference to a component that is not configured: an extension of
    the service, a receiver, a processor, an exporter of the pipeline. *)
Definition absent_extension : exampleWorld :=
  configured [(otlp, Some accepted)] [(otlp, Some accepted)] [] []
    [zpages] [(traces, pipeline [otlp] [] [otlp])].

Definition absent_receiver : exampleWorld :=
  configured [(otlp, Some accepted)] [(otlp, Some accepted)] [] [] []
    [(traces, pipeline [otlp; jaeger] [] [otlp])].

Definition absent_processor : exampleWorld :=
  configured [(otlp, Some accepted)] [(otlp, Some accepted)] [] [] []
    [(traces, pipeline [otlp] [batch] [otlp])].

Definition absent_exporter : exampleWorld :=
  configured [(otlp, Some accepted)] [(otlp, Some accepted)] [] [] []
    [(traces, pipeline [otlp] [] [otlp; jaeger])].

(** A reference to a receiver that is not configured, no exporter
    configured at all. *)
Definition absent_receiver_no_exporter : exampleWorld :=
  configured [(otlp, Some accepted)] [] [] [] []
    [(traces, pipeline [jaeger] [] [otlp])].

(** A reference to a component configured as nil: an extension of the
    service, a receiver, a processor, an exporter of the pipeline. *)
Definition nil_extension : exampleWorld :=
  configured [(otlp, Some accepted)] [(otlp, Some accepted)] []
    [(zpages, None)] [zpages] [(traces, pipeline [otlp] [] [otlp])].

Definition nil_receiver : exampleWorld :=
  configured [(otlp, None)] [(otlp, Some accepted)] [] [] []
    [(traces, pipeline [otlp] [] [otlp])].

Definition nil_processor : exampleWorld :=
  configured [(otlp, Some accepted)] [(otlp, Some accepted)]
    [(batch, None)] [] [] [(traces, pipeline [otlp] [batch] [otlp])].

Definition nil_exporter : exampleWorld :=
  configured [(otlp, Some accepted)] [(otlp, None)] [] [] []
    [(traces, pipeline [otlp] [] [otlp])].

(** The nil receiver, no exporter configured at all. *)
Definition nil_receiver_no_exporter : exampleWorld :=
  configured [(otlp, None)] [] [] [] []
    [(traces, pipeline [otlp] [] [otlp])].

(** The nil receiver with its key removed. *)
Definition nil_receiver_removed : exampleWorld :=
  configured [] [(otlp, Some accepted)] [] [] []
    [(traces, pipeline [otlp] [] [otlp])].

(** A nil pipeline. *)
Definition nil_pipeline : exampleWorld :=
  configured [(otlp, Some accepted)] [(otlp, Some accepted)] [] [] []
    [(traces, None)].


(** A traces pipeline without receivers; one without exporters. *)
Definition no_receiver_pipeline : exampleWorld :=
  configured [(otlp, Some accepted)] [(otlp, Some accepted)] [] [] []
    [(traces, pipeline [] [] [otlp])].

Definition no_exporter_pipeline : exampleWorld :=
  configured [(otlp, Some accepted)] [(otlp, Some accepted)] [] [] []
    [(traces, pipeline [otlp] [] [])].

(** A nil pipeline of kind profiles. *)
Definition nil_profiles : exampleWorld :=
  configured [(otlp, Some accepted)] [(otlp, Some accepted)] [] [] []
    [(profiles, None)].

(** An exporter whose hook fails. *)
Definition rejected_exporter : exampleWorld :=
  configured [(otlp, Some accepted)] [(otlp, Some rejected)] [] [] []
    [(traces, pipeline [otlp] [] [otlp])].

End examples.

(** * Facts *)

(** ** Statements *)

Section StatementFacts.
Context {World R : Type} (I : World → Prop) (bad : outcome R → Prop).

Lemma runs_to_skip {A} (a : A) :
  runs_to I (mret a : stmt World R A) (Next a).
Proof. intros w Hw. done. Qed.

Lemma runs_to_return {A} (r : R) :
  runs_to I (return_ r : stmt World R A) (Stop (Returns r)).
Proof. intros w Hw. done. Qed.

Lemma runs_to_panic {A} : runs_to I (panic : stmt World R A) (Stop Panics).
Proof. intros w Hw. done. Qed.

Lemma runs_to_bind {A B} (m : stmt World R A) (k : A → stmt World R B) a s :
  runs_to I m (Next a) → runs_to I (k a) s → runs_to I (m ≫= k) s.
Proof.
  intros Hm Hk w Hw. destruct (Hm w Hw) as [E1 E2].
  unfold mbind, stmt_bind, seq.
  destruct (m w) as [r w']; simpl in *; subst r. by apply Hk.
Qed.

Lemma runs_to_bind_Stop {A B} (m : stmt World R A) (k : A → stmt World R B) o :
  runs_to I m (Stop o) → runs_to I (m ≫= k) (Stop o).
Proof.
  intros Hm w Hw. destruct (Hm w Hw) as [E1 E2].
  unfold mbind, stmt_bind, seq.
  destruct (m w) as [r w']; simpl in *; by subst r.
Qed.

Lemma runs_to_when_false (body : stmt World R unit) :
  runs_to I (when false body) (Next tt).
Proof. apply (runs_to_skip tt). Qed.

Lemma runs_to_when_true (body : stmt World R unit) s :
  runs_to I body s → runs_to I (when true body) s.
Proof. done. Qed.

Lemma runs_to_for_range_nil {X S} (body : X → S → stmt World R S) acc :
  runs_to I (for_range [] body acc) (Next acc).
Proof. apply (runs_to_skip acc). Qed.

Lemma runs_to_for_range_cons {X S} (body : X → S → stmt World R S)
    x xs acc acc' s :
  runs_to I (body x acc) (Next acc') →
  runs_to I (for_range xs body acc') s →
  runs_to I (for_range (x :: xs) body acc) s.
Proof. intros Hx Hxs. by apply (runs_to_bind (body x acc)) with acc'. Qed.

Lemma runs_to_for_range_cons_Stop {X S} (body : X → S → stmt World R S)
    x xs acc o :
  runs_to I (body x acc) (Stop o) →
  runs_to I (for_range (x :: xs) body acc) (Stop o).
Proof. intros Hx. by apply (runs_to_bind_Stop (body x acc)). Qed.

(** A loop without local state whose body goes on for every element goes
    on. *)
Lemma runs_to_for_range_all {X} (body : X → unit → stmt World R unit) xs :
  Forall (λ x, runs_to I (body x tt) (Next tt)) xs →
  runs_to I (for_range xs body tt) (Next tt).
Proof.
  induction 1 as [|x xs Hx _ IH].
  - apply runs_to_for_range_nil.
  - by apply runs_to_for_range_cons with tt.
Qed.

(** Such a loop ends the call at the first element whose body does. *)
Lemma runs_to_for_range_first {X} (body : X → unit → stmt World R unit)
    pre x post o :
  Forall (λ y, runs_to I (body y tt) (Next tt)) pre →
  runs_to I (body x tt) (Stop o) →
  runs_to I (for_range (pre ++ x :: post) body tt) (Stop o).
Proof.
  intros Hpre Hx. induction Hpre as [|y pre Hy _ IH]; simpl.
  - by apply runs_to_for_range_cons_Stop.
  - by apply runs_to_for_range_cons with tt.
Qed.

(** A statement takes one step only. *)
Lemma runs_to_agree {A} (m : stmt World R A) s1 s2 w :
  I w → runs_to I m s1 → runs_to I m s2 → s1 = s2.
Proof.
  intros Hw H1 H2. destruct (H1 w Hw) as [<- _]. by destruct (H2 w Hw).
Qed.

Lemma checks_pass {A} (m : stmt World R A) P :
  checks I bad m P → P → ∃ a, runs_to I m (Next a).
Proof. intros [[_ H]|[H _]] HP; [done | by destruct H]. Qed.

Lemma checks_iff {A} (m : stmt World R A) P Q :
  (P ↔ Q) → checks I bad m P → checks I bad m Q.
Proof. unfold checks. intros HPQ H. by rewrite <- HPQ. Qed.

Lemma checks_skip {A} (a : A) : checks I bad (mret a : stmt World R A) True.
Proof. left. split; [done|]. exists a. apply runs_to_skip. Qed.

Lemma checks_when (cond : bool) (r : R) :
  bad (Returns r) →
  checks I bad (when cond (return_ r)) (cond = false).
Proof.
  intros Hbad. destruct cond.
  - right. split; [done|]. exists (Returns r). split; [done|].
    apply runs_to_when_true, runs_to_return.
  - left. split; [done|]. exists tt. apply runs_to_when_false.
Qed.

Lemma checks_bind {A B} (m : stmt World R A) (k : A → stmt World R B) P Q :
  checks I bad m P → (∀ a, checks I bad (k a) Q) →
  checks I bad (m ≫= k) (P ∧ Q).
Proof.
  intros [[HP [a Ha]]|[HP (o & Ho & Hm)]] Hk.
  - destruct (Hk a) as [[HQ [b Hb]]|[HQ (o & Ho & Hka)]].
    + left. split; [done|]. exists b. by apply runs_to_bind with a.
    + right. split; [tauto|]. exists o. split; [done|].
      by apply runs_to_bind with a.
  - right. split; [tauto|]. exists o. split; [done|].
    by apply runs_to_bind_Stop.
Qed.

Lemma checks_step {A B} (m : stmt World R A) (k : A → stmt World R B) a Q :
  runs_to I m (Next a) → checks I bad (k a) Q → checks I bad (m ≫= k) Q.
Proof.
  intros Hm [[HQ [b Hb]]|[HQ (o & Ho & Hk)]].
  - left. split; [done|]. exists b. by apply runs_to_bind with a.
  - right. split; [done|]. exists o. split; [done|].
    by apply runs_to_bind with a.
Qed.

Lemma checks_stop {A B} (m : stmt World R A) (k : A → stmt World R B) o Q :
  runs_to I m (Stop o) → bad o → ¬ Q → checks I bad (m ≫= k) Q.
Proof.
  intros Hm Ho HQ. right. split; [done|]. exists o. split; [done|].
  by apply runs_to_bind_Stop.
Qed.

Lemma checks_for_range {X} (body : X → unit → stmt World R unit)
    (P : X → Prop) xs :
  (∀ x, x ∈ xs → checks I bad (body x tt) (P x)) →
  checks I bad (for_range xs body tt) (Forall P xs).
Proof.
  induction xs as [|x xs IH]; intros Hbody.
  - left. split; [constructor|]. exists tt. apply runs_to_for_range_nil.
  - apply (checks_iff _ (P x ∧ Forall P xs)); [by rewrite Forall_cons|].
    apply (checks_bind (body x tt)).
    + apply Hbody. left.
    + intros []. apply IH. intros y Hy. apply Hbody. by right.
Qed.

Lemma decides_iff {A} (m : stmt World R A) good P Q :
  (P ↔ Q) → decides I bad good m P → decides I bad good m Q.
Proof. unfold decides. intros HPQ H. by rewrite <- HPQ. Qed.

Lemma decides_return {A} (r : R) :
  decides I bad (Returns r) (return_ r : stmt World R A) True.
Proof. left. split; [done|]. apply runs_to_return. Qed.

Lemma decides_bind {A B} (m : stmt World R A) (k : A → stmt World R B)
    good P Q :
  checks I bad m P → (∀ a, decides I bad good (k a) Q) →
  decides I bad good (m ≫= k) (P ∧ Q).
Proof.
  intros [[HP [a Ha]]|[HP (o & Ho & Hm)]] Hk.
  - destruct (Hk a) as [[HQ Hg]|[HQ (o & Ho & Hka)]].
    + left. split; [done|]. by apply runs_to_bind with a.
    + right. split; [tauto|]. exists o. split; [done|].
      by apply runs_to_bind with a.
  - right. split; [tauto|]. exists o. split; [done|].
    by apply runs_to_bind_Stop.
Qed.

Lemma decides_step {A B} (m : stmt World R A) (k : A → stmt World R B)
    a good Q :
  runs_to I m (Next a) → decides I bad good (k a) Q →
  decides I bad good (m ≫= k) Q.
Proof.
  intros Hm [[HQ Hg]|[HQ (o & Ho & Hk)]].
  - left. split; [done|]. by apply runs_to_bind with a.
  - right. split; [done|]. exists o. split; [done|].
    by apply runs_to_bind with a.
Qed.

(** What a call returns, from what its body runs to. *)
Lemma call_runs_to (body : stmt World R Empty_set) o w :
  I w → runs_to I body (Stop o) → (call body w).1 = o ∧ I (call body w).2.
Proof.
  intros Hw Hb. destruct (Hb w Hw) as [E1 E2]. unfold call.
  destruct (body w) as [[[]|o'] w']; simpl in *. by simplify_eq.
Qed.

End StatementFacts.

(** Two runs side by side. *)
Section AgreeFacts.
Context {World R : Type} (I1 I2 : World → Prop).

Lemma agree_skip {A} (a : A) :
  agree I1 I2 (mret a : stmt World R A) (mret a).
Proof. intros w1 w2 H1 H2. done. Qed.

Lemma agree_return {A} (r : R) :
  agree I1 I2 (return_ r : stmt World R A) (return_ r).
Proof. intros w1 w2 H1 H2. done. Qed.

Lemma agree_panic {A} : agree I1 I2 (panic : stmt World R A) panic.
Proof. intros w1 w2 H1 H2. done. Qed.

Lemma agree_when (cond : bool) (m1 m2 : stmt World R unit) :
  agree I1 I2 m1 m2 → agree I1 I2 (when cond m1) (when cond m2).
Proof. intros Hm. destruct cond; [done|]. apply (agree_skip tt). Qed.

Lemma agree_deref {A} (p : option A) :
  agree I1 I2 (deref p : stmt World R A) (deref p).
Proof. destruct p; [apply agree_skip|apply agree_panic]. Qed.

Lemma agree_runs {A} (m1 m2 : stmt World R A) s :
  runs_to I1 m1 s → runs_to I2 m2 s → agree I1 I2 m1 m2.
Proof.
  intros Hm1 Hm2 w1 w2 H1 H2.
  destruct (Hm1 w1 H1) as [-> ?], (Hm2 w2 H2) as [-> ?]. done.
Qed.

Lemma agree_bind {A B} (m1 m2 : stmt World R A) (k1 k2 : A → stmt World R B) :
  agree I1 I2 m1 m2 → (∀ a, agree I1 I2 (k1 a) (k2 a)) →
  agree I1 I2 (m1 ≫= k1) (m2 ≫= k2).
Proof.
  intros Hm Hk w1 w2 H1 H2. destruct (Hm w1 w2 H1 H2) as (E & H1' & H2').
  unfold mbind, stmt_bind, seq.
  destruct (m1 w1) as [s1 w1'], (m2 w2) as [s2 w2']; simpl in *. subst s2.
  destruct s1 as [a|o]; [by apply Hk|done].
Qed.

Lemma agree_for_range {X S} (b1 b2 : X → S → stmt World R S) xs acc :
  (∀ x acc, agree I1 I2 (b1 x acc) (b2 x acc)) →
  agree I1 I2 (for_range xs b1 acc) (for_range xs b2 acc).
Proof.
  intros Hb. revert acc. induction xs as [|x xs IH]; intros acc.
  - apply (agree_skip acc).
  - apply (agree_bind (b1 x acc) (b2 x acc)); [apply Hb|apply IH].
Qed.

(** What two calls return, from how their bodies agree. *)
Lemma call_agree (b1 b2 : stmt World R Empty_set) w1 w2 :
  I1 w1 → I2 w2 → agree I1 I2 b1 b2 → (call b1 w1).1 = (call b2 w2).1.
Proof.
  intros H1 H2 Hb. destruct (Hb w1 w2 H1 H2) as (E & _). unfold call.
  destruct (b1 w1) as [[[]|o1] w1'], (b2 w2) as [[[]|o2] w2']; simpl in *.
  by simplify_eq.
Qed.

End AgreeFacts.

(** ** The validator *)

Import service.

Section ValidatorFacts.
Context {ConfigImpl TelemetryConfig : Type}.
Variable ValidateConfig : option ConfigImpl → option error.
Variable telemetry_Validate : TelemetryConfig → option error.

Abbreviation Config := (Config ConfigImpl TelemetryConfig).
Abbreviation world := (world ConfigImpl TelemetryConfig).
Abbreviation rangeOrder := (rangeOrder ConfigImpl).
Abbreviation stmt' := (stmt world (option error)).

Implicit Types (cfg : Config) (w : world) (o : rangeOrder).

Lemma refusal_error (e : error) : refusal (Returns (Some e)).
Proof. done. Qed.

Lemma refusal_panic : refusal Panics.
Proof. done. Qed.

Lemma runs_to_load cfg : runs_to (designates cfg) load (Next cfg).
Proof. intros w Hw. split; [|done]. simpl. by rewrite Hw. Qed.

(** Printing leaves the configuration alone. *)
Lemma runs_to_Printf cfg format args :
  runs_to (designates cfg) (fmt_Printf format args) (Next tt).
Proof. intros w Hw. done. Qed.

(** The loop over the entries of one category: it goes on exactly when
    every hook passes. *)
Lemma checks_hooks cfg format entries :
  checks (designates cfg) refusal
    (for_range entries (λ '(id, c) _,
       match ValidateConfig c with
       | Some err =>
           return_ (Some (fmt_Errorf format [ArgID id; ArgErr err]))
       | None => mret tt
       end) tt : stmt' unit)
    (hooks_pass ValidateConfig entries).
Proof.
  apply checks_for_range. intros [id c] _. cbv beta iota. simpl.
  destruct (ValidateConfig c) as [err|].
  - right. split; [done|]. eexists. split; [|apply runs_to_return]. done.
  - left. split; [done|]. exists tt. apply runs_to_skip.
Qed.

(** The loop over a list of references: it goes on exactly when every
    reference resolves. *)
Lemma checks_refs cfg (m : gmap ID (option ConfigImpl)) (err : ID → error)
    refs :
  checks (designates cfg) refusal
    (for_range refs (λ ref _,
       when (is_nil (index m ref)) (return_ (Some (err ref)))) tt
     : stmt' unit)
    (Forall (resolves m) refs).
Proof.
  apply checks_for_range. intros ref _. by apply checks_when.
Qed.

(** The body of the loop over the processors of a pipeline, as
    [validateService_pipeline] has it. *)
Abbreviation processors_body cfg pipelineID :=
  (λ ref (procSet : gmap ID bool),
     when (is_nil (index (Processors cfg) ref))
       (return_ (Some (fmt_Errorf
          "pipeline %q references processor %q which does not exist"
          [ArgID pipelineID; ArgID ref])));;
     when (bool_decide (is_Some (procSet !! ref)))
       (return_ (Some (fmt_Errorf
          "pipeline %q references processor %q multiple times"
          [ArgID pipelineID; ArgID ref])));;
     mret (<[ref := true]> procSet) : stmt' (gmap ID bool)).

(** The loop over the processors of a pipeline, [procSet] holding the
    references seen so far: it goes on exactly when every reference
    resolves and none was seen before or comes twice. *)
Lemma checks_processors cfg (pipelineID : ID) refs (procSet : gmap ID bool) :
  checks (designates cfg) refusal
    (for_range refs (processors_body cfg pipelineID) procSet : stmt' (gmap ID bool))
    (Forall (resolves (Processors cfg)) refs ∧ NoDup refs ∧
     Forall (λ ref, procSet !! ref = None) refs).
Proof.
  revert procSet. induction refs as [|ref refs IH]; intros procSet.
  - left. split; [by repeat constructor|]. eexists.
    apply runs_to_for_range_nil.
  - change (for_range (ref :: refs) ?body procSet)
      with (body ref procSet ≫= for_range refs body).
    cbv beta.
    destruct (is_nil (index (Processors cfg) ref)) eqn:Hnil.
    { apply checks_stop with (o := Returns (Some (fmt_Errorf
        "pipeline %q references processor %q which does not exist"
        [ArgID pipelineID; ArgID ref]))); [|done|].
      - apply runs_to_bind_Stop, runs_to_when_true, runs_to_return.
      - rewrite Forall_cons. unfold resolves. rewrite Hnil.
        by intros [[? _] _]. }
    destruct (procSet !! ref) as [seen|] eqn:Hseen.
    { apply checks_stop with (o := Returns (Some (fmt_Errorf
        "pipeline %q references processor %q multiple times"
        [ArgID pipelineID; ArgID ref]))); [|done|].
      - eapply runs_to_bind; [apply runs_to_when_false|].
        apply runs_to_bind_Stop. rewrite bool_decide_eq_true_2 by done.
        apply runs_to_when_true, runs_to_return.
      - rewrite !Forall_cons, Hseen. by intros (_ & _ & [? _]). }
    eapply checks_step.
    { eapply runs_to_bind; [apply runs_to_when_false|].
      eapply runs_to_bind; [|apply runs_to_skip].
      rewrite bool_decide_eq_false_2; [apply runs_to_when_false|].
      by intros [? ?]. }
    eapply checks_iff; [|apply IH].
    rewrite !Forall_cons, NoDup_cons. unfold resolves at 2. rewrite Hnil.
    assert (Forall (λ r, (<[ref:=true]> procSet) !! r = None) refs
            ↔ (ref ∉ refs) ∧ Forall (λ r, procSet !! r = None) refs) as ->.
    { rewrite !Forall_forall. split.
      - intros H. split.
        + intros Hin. specialize (H _ Hin). by rewrite lookup_insert_eq in H.
        + intros r Hr. specialize (H _ Hr).
          destruct (decide (ref = r)) as [->|Hne];
            [by rewrite lookup_insert_eq in H|].
          by rewrite lookup_insert_ne in H.
      - intros [Hnin H] r Hr. rewrite lookup_insert_ne; [by apply H|].
        by intros ->. }
    tauto.
Qed.

Lemma known_kind_test (pipelineID : ID) :
  bool_decide (ID_Type pipelineID ≠ DataTypeTraces)
  && bool_decide (ID_Type pipelineID ≠ DataTypeMetrics)
  && bool_decide (ID_Type pipelineID ≠ DataTypeLogs) = false
  ↔ known_kind pipelineID.
Proof.
  unfold known_kind.
  rewrite !andb_false_iff, !bool_decide_eq_false.
  destruct (decide (ID_Type pipelineID = DataTypeTraces));
    destruct (decide (ID_Type pipelineID = DataTypeMetrics));
    destruct (decide (ID_Type pipelineID = DataTypeLogs)); tauto.
Qed.

Lemma length_test {X} (xs : list X) :
  bool_decide (length xs = 0) = false ↔ xs ≠ [].
Proof. rewrite bool_decide_eq_false. by destruct xs. Qed.

(** The telemetry check at the end of each iteration: whatever it finds,
    the loop goes on. *)
Lemma runs_to_telemetry cfg :
  runs_to (designates cfg)
    (match telemetry_Validate (Service.Telemetry (Service cfg)) with
     | Some err =>
         fmt_Printf "telemetry config validation failed, %v\n" [ArgErr err]
     | None => mret tt
     end : stmt' unit) (Next tt).
Proof.
  destruct (telemetry_Validate _); [apply runs_to_Printf|apply runs_to_skip].
Qed.


(** One iteration of the loop over the pipelines goes on exactly for a
    pipeline that is in order. *)
Lemma checks_pipeline cfg (pipelineID : ID) pipeline :
  checks (designates cfg) refusal
    (validateService_pipeline telemetry_Validate cfg pipelineID pipeline)
    (pipeline_ok cfg (pipelineID, pipeline)).
Proof.
  unfold validateService_pipeline, pipeline_ok. simpl fst; simpl snd.
  eapply checks_iff;
    [apply and_iff_compat_r, known_kind_test|].
  apply checks_bind; [by apply checks_when|]. intros _.
  destruct pipeline as [pipeline|]; simpl deref.
  2:{ apply checks_stop with (o := Panics);
        [apply runs_to_panic|done|by intros (? & ? & _)]. }
  apply checks_step with pipeline; [apply runs_to_skip|].
  apply checks_iff with (P := references_ok cfg pipeline).
  { split; [by eauto|]. by intros (? & [= <-] & ?). }
  eapply checks_iff; last first.
  { apply checks_bind; [by apply checks_when|]. intros _.
    apply checks_bind; [apply checks_refs|]. intros _.
    apply checks_bind; [apply checks_processors|]. intros _.
    apply checks_bind; [by apply checks_when|]. intros _.
    apply checks_bind; [apply checks_refs|]. intros _.
    left. split; [exact I|]. exists tt. apply runs_to_telemetry. }
  unfold references_ok. rewrite !length_test.
  assert (Forall (λ ref, (∅ : gmap ID bool) !! ref = None)
            (config.Processors pipeline)) by (by apply Forall_forall).
  tauto.
Qed.

Lemma size_test {V} (m : gmap ID V) :
  bool_decide (size m = 0) = false ↔ size m ≠ 0.
Proof. apply bool_decide_eq_false. Qed.

(** [validateService] returns nil exactly when the extensions of the
    service resolve, there is a pipeline, and every pipeline visited is in
    order; otherwise it ends in a refusal. *)
Lemma validateService_decides cfg o :
  decides (designates cfg) refusal (Returns None)
    (validateService telemetry_Validate o)
    (extensions_ok cfg ∧
     size (Service.Pipelines (Service cfg)) ≠ 0 ∧
     Forall (pipeline_ok cfg) (range_Pipelines o)).
Proof.
  unfold validateService.
  apply decides_step with cfg; [apply runs_to_load|].
  eapply decides_iff; last first.
  { apply decides_bind; [apply checks_refs|]. intros _.
    apply decides_bind; [by apply checks_when|]. intros _.
    apply decides_bind.
    - apply checks_for_range with (P := pipeline_ok cfg).
      intros [pipelineID pipeline] _. apply checks_pipeline.
    - intros _. apply decides_return. }
  unfold extensions_ok. rewrite size_test. tauto.
Qed.

(** The same for [Validate], with the checks on the four categories
    first. *)
Lemma Validate_body_decides cfg o :
  decides (designates cfg) refusal (Returns None)
    (Validate_body ValidateConfig telemetry_Validate o)
    (((size (Receivers cfg) ≠ 0 ∧
       hooks_pass ValidateConfig (range_Receivers o)) ∧
      (size (Exporters cfg) ≠ 0 ∧
       hooks_pass ValidateConfig (range_Exporters o)) ∧
      hooks_pass ValidateConfig (range_Processors o) ∧
      hooks_pass ValidateConfig (range_Extensions o)) ∧
     extensions_ok cfg ∧
     size (Service.Pipelines (Service cfg)) ≠ 0 ∧
     Forall (pipeline_ok cfg) (range_Pipelines o)).
Proof.
  unfold Validate_body.
  apply decides_step with cfg; [apply runs_to_load|].
  eapply decides_iff; last first.
  { apply decides_bind; [by apply checks_when|]. intros _.
    apply decides_bind; [apply checks_hooks|]. intros _.
    apply decides_bind; [by apply checks_when|]. intros _.
    apply decides_bind; [apply checks_hooks|]. intros _.
    apply decides_bind; [apply checks_hooks|]. intros _.
    apply decides_bind; [apply checks_hooks|]. intros _.
    apply validateService_decides. }
  rewrite !size_test. tauto.
Qed.

(** Under an order that visits every entry once, the checks on the
    entries visited are the checks on the entries of the maps. *)
Lemma ranges_config_ok cfg o :
  ranges o cfg →
  ((size (Receivers cfg) ≠ 0 ∧
    hooks_pass ValidateConfig (range_Receivers o)) ∧
   (size (Exporters cfg) ≠ 0 ∧
    hooks_pass ValidateConfig (range_Exporters o)) ∧
   hooks_pass ValidateConfig (range_Processors o) ∧
   hooks_pass ValidateConfig (range_Extensions o)) ∧
  extensions_ok cfg ∧
  size (Service.Pipelines (Service cfg)) ≠ 0 ∧
  Forall (pipeline_ok cfg) (range_Pipelines o)
  ↔ config_ok ValidateConfig cfg.
Proof.
  intros (Hr & He & Hp & Hx & Hs).
  unfold config_ok, categories_ok, hooks_pass.
  by rewrite Hr, He, Hp, Hx, Hs.
Qed.

(** What a call of [Validate] gives, from what its body runs to. *)
Lemma Validate_runs_to o w r :
  runs_to (designates (config_at w))
    (Validate_body ValidateConfig telemetry_Validate o) (Stop r) →
  (Validate ValidateConfig telemetry_Validate o w).1 = r ∧
  config_at (Validate ValidateConfig telemetry_Validate o w).2 = config_at w.
Proof. intros H. by apply (call_runs_to (designates (config_at w))). Qed.

(** [Validate] returns a nil error exactly for the configurations that
    are in order, whatever the order of the visits. *)
Lemma Validate_nil_iff o w :
  ranges o (config_at w) →
  (Validate ValidateConfig telemetry_Validate o w).1 = Returns None
  ↔ config_ok ValidateConfig (config_at w).
Proof.
  intros Ho. rewrite <- (ranges_config_ok _ o Ho).
  destruct (Validate_body_decides (config_at w) o)
    as [[HP Hrun]|[HP (r & Hr & Hrun)]];
    apply Validate_runs_to in Hrun as [-> _]; [done|].
  split; [|done]. by intros ->.
Qed.

(** *** Reaching a statement: the ones before it pass *)

Lemma runs_to_past {A B} cfg (m : stmt' A) (k : A → stmt' B) P s :
  checks (designates cfg) refusal m P → P →
  (∀ a, runs_to (designates cfg) (k a) s) →
  runs_to (designates cfg) (m ≫= k) s.
Proof.
  intros Hm HP Hk. destruct (checks_pass _ _ _ _ Hm HP) as [a Ha].
  by apply runs_to_bind with a.
Qed.

(** A loop over references ends the call at the first one that does not
    resolve. *)
Lemma refs_first cfg (m : gmap ID (option ConfigImpl)) (err : ID → error)
    pre ref post :
  Forall (resolves m) pre → is_nil (index m ref) = true →
  runs_to (designates cfg)
    (for_range (pre ++ ref :: post) (λ ref _,
       when (is_nil (index m ref)) (return_ (Some (err ref)))) tt
     : stmt' unit)
    (Stop (Returns (Some (err ref)))).
Proof.
  intros Hpre Href. apply runs_to_for_range_first.
  - eapply Forall_impl; [exact Hpre|]. intros y Hy. cbv beta.
    rewrite Hy. apply runs_to_when_false.
  - cbv beta. rewrite Href. apply runs_to_when_true, runs_to_return.
Qed.

(** The references a run of the processors loop has seen. *)
Lemma seen_lookup (refs : list ID) (procSet : gmap ID bool) ref :
  is_Some (foldl (λ acc r, <[r := true]> acc) procSet refs !! ref)
  ↔ ref ∈ refs ∨ is_Some (procSet !! ref).
Proof.
  revert procSet. induction refs as [|r refs IH]; intros procSet; simpl.
  - rewrite elem_of_nil. tauto.
  - rewrite IH, elem_of_cons, lookup_insert_is_Some.
    destruct (decide (r = ref)) as [->|Hne]; [tauto|].
    intuition congruence.
Qed.

(** The processors loop, past a prefix of distinct references that
    resolve, goes on with the rest and has seen the prefix. *)
Lemma processors_past cfg (pipelineID : ID) pre rest
    (procSet : gmap ID bool) s :
  Forall (resolves (Processors cfg)) pre → NoDup pre →
  Forall (λ ref, procSet !! ref = None) pre →
  runs_to (designates cfg)
    (for_range rest (processors_body cfg pipelineID)
       (foldl (λ acc r, <[r := true]> acc) procSet pre)
     : stmt' (gmap ID bool)) s →
  runs_to (designates cfg)
    (for_range (pre ++ rest) (processors_body cfg pipelineID) procSet
     : stmt' (gmap ID bool)) s.
Proof.
  revert procSet. induction pre as [|ref pre IH]; intros procSet; [done|].
  rewrite !Forall_cons, NoDup_cons. intros [Href Hpre] [Hnin Hnd] [Hs Hseen].
  intros Hrest. rewrite <- app_comm_cons. eapply runs_to_for_range_cons.
  - cbv beta. rewrite Href.
    eapply runs_to_bind; [apply runs_to_when_false|].
    eapply runs_to_bind; [|apply runs_to_skip].
    rewrite bool_decide_eq_false_2; [apply runs_to_when_false|].
    rewrite Hs. by intros [? ?].
  - apply IH; [done..| |done].
    eapply Forall_impl; [apply Forall_forall; intros r Hr; exact Hr|].
    cbv beta. intros r Hr. rewrite lookup_insert_ne.
    + by eapply Forall_forall in Hseen.
    + by intros ->.
Qed.

(** *** One iteration over a pipeline: where it ends the call *)

Lemma pipeline_unknown_kind cfg (pipelineID : ID)
    (pipeline : option config.Pipeline) :
  ¬ known_kind pipelineID →
  runs_to (designates cfg)
    (validateService_pipeline telemetry_Validate cfg pipelineID pipeline)
    (Stop (Returns (Some (fmt_Errorf "unknown pipeline datatype %q for %v"
       [ArgType (ID_Type pipelineID); ArgID pipelineID])))).
Proof.
  intros Hkind. unfold validateService_pipeline.
  apply runs_to_bind_Stop.
  rewrite <- known_kind_test in Hkind. apply not_false_is_true in Hkind.
  rewrite Hkind. apply runs_to_when_true, runs_to_return.
Qed.

(** Past the test of the kind and the dereference. *)
Lemma pipeline_known_kind cfg (pipelineID : ID) :
  known_kind pipelineID →
  runs_to (designates cfg)
    (when (bool_decide (ID_Type pipelineID ≠ DataTypeTraces)
           && bool_decide (ID_Type pipelineID ≠ DataTypeMetrics)
           && bool_decide (ID_Type pipelineID ≠ DataTypeLogs))
       (return_ (Some (fmt_Errorf "unknown pipeline datatype %q for %v"
          [ArgType (ID_Type pipelineID); ArgID pipelineID]))) : stmt' unit)
    (Next tt).
Proof.
  intros Hkind. apply known_kind_test in Hkind. rewrite Hkind.
  apply runs_to_when_false.
Qed.

Lemma pipeline_nil cfg (pipelineID : ID) :
  known_kind pipelineID →
  runs_to (designates cfg)
    (validateService_pipeline telemetry_Validate cfg pipelineID None)
    (Stop Panics).
Proof.
  intros Hkind. unfold validateService_pipeline.
  eapply runs_to_bind; [by apply pipeline_known_kind|].
  apply runs_to_bind_Stop, runs_to_panic.
Qed.

Lemma pipeline_no_receiver cfg (pipelineID : ID)
    (pipeline : config.Pipeline) :
  known_kind pipelineID → config.Receivers pipeline = [] →
  runs_to (designates cfg)
    (validateService_pipeline telemetry_Validate cfg pipelineID
       (Some pipeline))
    (Stop (Returns (Some (fmt_Errorf
       "pipeline %q must have at least one receiver" [ArgID pipelineID])))).
Proof.
  intros Hkind Hrs. unfold validateService_pipeline.
  eapply runs_to_bind; [by apply pipeline_known_kind|].
  eapply runs_to_bind; [apply runs_to_skip|].
  apply runs_to_bind_Stop. rewrite Hrs.
  apply runs_to_when_true, runs_to_return.
Qed.

Lemma pipeline_dangling_receiver cfg (pipelineID : ID)
    (pipeline : config.Pipeline) pre ref post :
  known_kind pipelineID →
  config.Receivers pipeline = pre ++ ref :: post →
  Forall (resolves (Receivers cfg)) pre →
  is_nil (index (Receivers cfg) ref) = true →
  runs_to (designates cfg)
    (validateService_pipeline telemetry_Validate cfg pipelineID
       (Some pipeline))
    (Stop (Returns (Some (fmt_Errorf
       "pipeline %q references receiver %q which does not exist"
       [ArgID pipelineID; ArgID ref])))).
Proof.
  intros Hkind Hrs Hpre Href. unfold validateService_pipeline.
  eapply runs_to_bind; [by apply pipeline_known_kind|].
  eapply runs_to_bind; [apply runs_to_skip|].
  eapply runs_to_bind.
  { rewrite Hrs, bool_decide_eq_false_2; [apply runs_to_when_false|].
    rewrite length_app. simpl. lia. }
  apply runs_to_bind_Stop. rewrite Hrs.
  by apply (refs_first cfg (Receivers cfg)
              (λ ref, fmt_Errorf _ [ArgID pipelineID; ArgID ref])).
Qed.

(** Past the receivers of a pipeline. *)
Lemma pipeline_past_receivers {B} cfg (pipelineID : ID)
    (pipeline : config.Pipeline)
    (k : stmt' B) s :
  config.Receivers pipeline ≠ [] →
  Forall (resolves (Receivers cfg)) (config.Receivers pipeline) →
  runs_to (designates cfg) k s →
  runs_to (designates cfg)
    (when (bool_decide (length (config.Receivers pipeline) = 0))
       (return_ (Some (fmt_Errorf
          "pipeline %q must have at least one receiver"
          [ArgID pipelineID])));;
     for_range (config.Receivers pipeline) (λ ref _,
       when (is_nil (index (Receivers cfg) ref))
         (return_ (Some (fmt_Errorf
            "pipeline %q references receiver %q which does not exist"
            [ArgID pipelineID; ArgID ref])))) tt;;
     k) s.
Proof.
  intros Hne Hrs Hk.
  eapply runs_to_past; [by apply checks_when|by apply length_test|].
  intros _.
  eapply runs_to_past; [apply checks_refs|done|]. by intros _.
Qed.

(** Reaching a processor of a pipeline, past distinct ones that
    resolve: what its test runs to, the iteration runs to. *)
Lemma pipeline_at_processor cfg (pipelineID : ID)
    (pipeline : config.Pipeline) pre ref post r :
  known_kind pipelineID →
  config.Receivers pipeline ≠ [] →
  Forall (resolves (Receivers cfg)) (config.Receivers pipeline) →
  config.Processors pipeline = pre ++ ref :: post →
  Forall (resolves (Processors cfg)) pre → NoDup pre →
  runs_to (designates cfg)
    (processors_body cfg pipelineID ref
       (foldl (λ acc r, <[r := true]> acc) ∅ pre)) (Stop r) →
  runs_to (designates cfg)
    (validateService_pipeline telemetry_Validate cfg pipelineID
       (Some pipeline)) (Stop r).
Proof.
  intros Hkind Hne Hrs Hps Hpre Hnd Href. unfold validateService_pipeline.
  eapply runs_to_bind; [by apply pipeline_known_kind|].
  eapply runs_to_bind; [apply runs_to_skip|].
  apply pipeline_past_receivers; [done..|].
  apply runs_to_bind_Stop. rewrite Hps.
  apply processors_past; [done..|by apply Forall_forall|].
  by apply runs_to_for_range_cons_Stop.
Qed.

Lemma processor_dangling cfg (pipelineID : ID) ref (procSet : gmap ID bool) :
  is_nil (index (Processors cfg) ref) = true →
  runs_to (designates cfg) (processors_body cfg pipelineID ref procSet)
    (Stop (Returns (Some (fmt_Errorf
       "pipeline %q references processor %q which does not exist"
       [ArgID pipelineID; ArgID ref])))).
Proof.
  intros Href. cbv beta. rewrite Href.
  apply runs_to_bind_Stop, runs_to_when_true, runs_to_return.
Qed.

Lemma processor_duplicate cfg (pipelineID : ID) ref (procSet : gmap ID bool) :
  resolves (Processors cfg) ref → is_Some (procSet !! ref) →
  runs_to (designates cfg) (processors_body cfg pipelineID ref procSet)
    (Stop (Returns (Some (fmt_Errorf
       "pipeline %q references processor %q multiple times"
       [ArgID pipelineID; ArgID ref])))).
Proof.
  intros Href Hseen. cbv beta. rewrite Href.
  eapply runs_to_bind; [apply runs_to_when_false|].
  apply runs_to_bind_Stop. rewrite bool_decide_eq_true_2 by done.
  apply runs_to_when_true, runs_to_return.
Qed.

(** Past the processors of a pipeline: what the rest of the iteration
    runs to, the iteration runs to. *)
Lemma pipeline_at_exporters cfg (pipelineID : ID)
    (pipeline : config.Pipeline) s :
  known_kind pipelineID →
  config.Receivers pipeline ≠ [] →
  Forall (resolves (Receivers cfg)) (config.Receivers pipeline) →
  Forall (resolves (Processors cfg)) (config.Processors pipeline) →
  NoDup (config.Processors pipeline) →
  runs_to (designates cfg)
    (when (bool_decide (length (config.Exporters pipeline) = 0))
       (return_ (Some (fmt_Errorf
          "pipeline %q must have at least one exporter"
          [ArgID pipelineID])));;
     for_range (config.Exporters pipeline) (λ ref _,
       when (is_nil (index (Exporters cfg) ref))
         (return_ (Some (fmt_Errorf
            "pipeline %q references exporter %q which does not exist"
            [ArgID pipelineID; ArgID ref])))) tt;;
     match telemetry_Validate (Service.Telemetry (Service cfg)) with
     | Some err =>
         fmt_Printf "telemetry config validation failed, %v\n" [ArgErr err]
     | None => mret tt
     end : stmt' unit) s →
  runs_to (designates cfg)
    (validateService_pipeline telemetry_Validate cfg pipelineID
       (Some pipeline)) s.
Proof.
  intros Hkind Hne Hrs Hps Hnd Hes. unfold validateService_pipeline.
  eapply runs_to_bind; [by apply pipeline_known_kind|].
  eapply runs_to_bind; [apply runs_to_skip|].
  apply pipeline_past_receivers; [done..|].
  eapply runs_to_past; [apply checks_processors| |by intros _].
  split_and!; [done..|]. by apply Forall_forall.
Qed.

Lemma pipeline_no_exporter cfg (pipelineID : ID)
    (pipeline : config.Pipeline) :
  known_kind pipelineID →
  config.Receivers pipeline ≠ [] →
  Forall (resolves (Receivers cfg)) (config.Receivers pipeline) →
  Forall (resolves (Processors cfg)) (config.Processors pipeline) →
  NoDup (config.Processors pipeline) →
  config.Exporters pipeline = [] →
  runs_to (designates cfg)
    (validateService_pipeline telemetry_Validate cfg pipelineID
       (Some pipeline))
    (Stop (Returns (Some (fmt_Errorf
       "pipeline %q must have at least one exporter" [ArgID pipelineID])))).
Proof.
  intros Hkind Hne Hrs Hps Hnd Hes. apply pipeline_at_exporters; [done..|].
  apply runs_to_bind_Stop. rewrite Hes.
  apply runs_to_when_true, runs_to_return.
Qed.

Lemma pipeline_dangling_exporter cfg (pipelineID : ID)
    (pipeline : config.Pipeline) pre ref post :
  known_kind pipelineID →
  config.Receivers pipeline ≠ [] →
  Forall (resolves (Receivers cfg)) (config.Receivers pipeline) →
  Forall (resolves (Processors cfg)) (config.Processors pipeline) →
  NoDup (config.Processors pipeline) →
  config.Exporters pipeline = pre ++ ref :: post →
  Forall (resolves (Exporters cfg)) pre →
  is_nil (index (Exporters cfg) ref) = true →
  runs_to (designates cfg)
    (validateService_pipeline telemetry_Validate cfg pipelineID
       (Some pipeline))
    (Stop (Returns (Some (fmt_Errorf
       "pipeline %q references exporter %q which does not exist"
       [ArgID pipelineID; ArgID ref])))).
Proof.
  intros Hkind Hne Hrs Hps Hnd Hes Hpre Href.
  apply pipeline_at_exporters; [done..|].
  eapply runs_to_bind.
  { rewrite Hes, bool_decide_eq_false_2; [apply runs_to_when_false|].
    rewrite length_app. simpl. lia. }
  apply runs_to_bind_Stop. rewrite Hes.
  by apply (refs_first cfg (Exporters cfg)
              (λ ref, fmt_Errorf _ [ArgID pipelineID; ArgID ref])).
Qed.

(** *** From one iteration to the call *)

(** [validateService] is reached when the checks on the categories
    pass. *)
Lemma Validate_at_service cfg o s :
  ranges o cfg → categories_ok ValidateConfig cfg →
  runs_to (designates cfg) (validateService telemetry_Validate o) s →
  runs_to (designates cfg)
    (Validate_body ValidateConfig telemetry_Validate o) s.
Proof.
  intros (Hr & He & Hp & Hx & _) ((Hr0 & Hrs) & (He0 & Hes) & Hps & Hxs) Hs.
  unfold Validate_body.
  eapply runs_to_bind; [apply runs_to_load|].
  eapply runs_to_past; [by apply checks_when|by apply size_test|]. intros _.
  eapply runs_to_past; [apply checks_hooks| |]; [|intros _].
  { unfold hooks_pass in *. by rewrite Hr. }
  eapply runs_to_past; [by apply checks_when|by apply size_test|]. intros _.
  eapply runs_to_past; [apply checks_hooks| |]; [|intros _].
  { unfold hooks_pass in *. by rewrite He. }
  eapply runs_to_past; [apply checks_hooks| |]; [|intros _].
  { unfold hooks_pass in *. by rewrite Hp. }
  eapply runs_to_past; [apply checks_hooks| |]; [|by intros _].
  unfold hooks_pass in *. by rewrite Hx.
Qed.

(** The first extension of the service that does not resolve ends the
    call. *)
Lemma Validate_at_extension cfg o pre ref post :
  ranges o cfg → categories_ok ValidateConfig cfg →
  Service.Extensions (Service cfg) = pre ++ ref :: post →
  Forall (resolves (Extensions cfg)) pre →
  is_nil (index (Extensions cfg) ref) = true →
  runs_to (designates cfg)
    (Validate_body ValidateConfig telemetry_Validate o)
    (Stop (Returns (Some (fmt_Errorf
       "service references extension %q which does not exist"
       [ArgID ref])))).
Proof.
  intros Ho Hcat Hexts Hpre Href. apply Validate_at_service; [done..|].
  unfold validateService.
  eapply runs_to_bind; [apply runs_to_load|].
  apply runs_to_bind_Stop. rewrite Hexts.
  by apply (refs_first cfg (Extensions cfg)
              (λ ref, fmt_Errorf _ [ArgID ref])).
Qed.

(** The pipelines are reached when, besides, the extensions of the
    service resolve and there is a pipeline; the first pipeline whose
    iteration ends the call decides. *)
Lemma Validate_at_pipeline cfg o pre (pipelineID : ID) pipeline post r :
  ranges o cfg → categories_ok ValidateConfig cfg → extensions_ok cfg →
  range_Pipelines o = pre ++ (pipelineID, pipeline) :: post →
  Forall (pipeline_ok cfg) pre →
  runs_to (designates cfg)
    (validateService_pipeline telemetry_Validate cfg pipelineID pipeline)
    (Stop r) →
  runs_to (designates cfg)
    (Validate_body ValidateConfig telemetry_Validate o) (Stop r).
Proof.
  intros Ho Hcat Hexts Hps Hpre Hr. apply Validate_at_service; [done..|].
  unfold validateService.
  eapply runs_to_bind; [apply runs_to_load|].
  eapply runs_to_past; [apply checks_refs|done|]. intros _.
  eapply runs_to_past; [by apply checks_when| |]; [|intros _].
  { apply size_test. destruct Ho as (_ & _ & _ & _ & Hperm).
    rewrite <- length_map_to_list, <- Hperm, Hps, length_app. simpl. lia. }
  apply runs_to_bind_Stop. rewrite Hps.
  apply runs_to_for_range_first; [|done].
  eapply Forall_impl; [exact Hpre|]. intros [id p] Hok. cbv beta iota.
  destruct (checks_pass _ _ _ _ (checks_pipeline cfg id p) Hok) as [[] H].
  exact H.
Qed.

(** A configuration that is not in order is refused, whatever the order
    of the visits. *)
Lemma Validate_refuses o w :
  ranges o (config_at w) → ¬ config_ok ValidateConfig (config_at w) →
  (Validate ValidateConfig telemetry_Validate o w).1 ≠ Returns None.
Proof. intros Ho Hnok Hnil. by apply Validate_nil_iff in Hnil. Qed.

(** A pipeline that is not in order makes the configuration so. *)
Lemma config_ok_pipeline cfg (pipelineID : ID) pipeline :
  Service.Pipelines (Service cfg) !! pipelineID = Some pipeline →
  config_ok ValidateConfig cfg → pipeline_ok cfg (pipelineID, pipeline).
Proof.
  intros Hin (_ & _ & _ & Hall).
  eapply Forall_forall in Hall; [exact Hall|]. by apply elem_of_map_to_list.
Qed.

(** ** What [Validate] returns *)

(** C1, amended. A configuration without receivers is refused with
    [errMissingReceivers], whatever else it holds and in whatever order
    the maps are visited. A configuration without exporters is refused
    with [errMissingExporters] provided it has receivers and the hook of
    every receiver passes: these checks come first. *)
Theorem Validate_missing_category o w :
  (size (Receivers (config_at w)) = 0 →
   (Validate ValidateConfig telemetry_Validate o w).1
   = Returns (Some errMissingReceivers)) ∧
  (ranges o (config_at w) →
   size (Receivers (config_at w)) ≠ 0 →
   hooks_pass ValidateConfig (map_to_list (Receivers (config_at w))) →
   size (Exporters (config_at w)) = 0 →
   (Validate ValidateConfig telemetry_Validate o w).1
   = Returns (Some errMissingExporters)).
Proof.
  split.
  - intros Hr. apply Validate_runs_to. unfold Validate_body.
    eapply runs_to_bind; [apply runs_to_load|].
    apply runs_to_bind_Stop. rewrite bool_decide_eq_true_2 by done.
    apply runs_to_when_true, runs_to_return.
  - intros (Ho & _) Hr Hrs He. apply Validate_runs_to. unfold Validate_body.
    eapply runs_to_bind; [apply runs_to_load|].
    eapply runs_to_past; [by apply checks_when|by apply size_test|].
    intros _.
    eapply runs_to_past; [apply checks_hooks| |]; [|intros _].
    { unfold hooks_pass in *. by rewrite Ho. }
    apply runs_to_bind_Stop. rewrite bool_decide_eq_true_2 by done.
    apply runs_to_when_true, runs_to_return.
Qed.

(** C2, amended. A configuration without pipelines is refused with
    [errMissingServicePipelines] provided the checks that come first
    pass: those on the four categories, and the extensions of the service
    resolve. *)
Theorem Validate_missing_pipelines o w :
  ranges o (config_at w) →
  categories_ok ValidateConfig (config_at w) →
  extensions_ok (config_at w) →
  size (Service.Pipelines (Service (config_at w))) = 0 →
  (Validate ValidateConfig telemetry_Validate o w).1
  = Returns (Some errMissingServicePipelines).
Proof.
  intros Ho Hcat Hexts Hnone. apply Validate_runs_to.
  apply Validate_at_service; [done..|]. unfold validateService.
  eapply runs_to_bind; [apply runs_to_load|].
  eapply runs_to_past; [apply checks_refs|done|]. intros _.
  apply runs_to_bind_Stop. rewrite bool_decide_eq_true_2 by done.
  apply runs_to_when_true, runs_to_return.
Qed.

(** C3, amended. A configuration with a pipeline of a kind other than
    traces, metrics and logs is never accepted. The error is the one
    that names the kind and the pipeline provided the checks that come
    first pass: those on the four categories, the extensions of the
    service resolve, and every pipeline visited before this one is in
    order. *)
Theorem Validate_unknown_kind o w (pipelineID : ID) pipeline :
  ranges o (config_at w) →
  Service.Pipelines (Service (config_at w)) !! pipelineID = Some pipeline →
  ¬ known_kind pipelineID →
  (Validate ValidateConfig telemetry_Validate o w).1 ≠ Returns None ∧
  (categories_ok ValidateConfig (config_at w) →
   extensions_ok (config_at w) →
   ∀ pre post,
     range_Pipelines o = pre ++ (pipelineID, pipeline) :: post →
     Forall (pipeline_ok (config_at w)) pre →
     (Validate ValidateConfig telemetry_Validate o w).1
     = Returns (Some (fmt_Errorf "unknown pipeline datatype %q for %v"
         [ArgType (ID_Type pipelineID); ArgID pipelineID]))).
Proof.
  intros Ho Hin Hkind. split.
  - apply Validate_refuses; [done|]. intros Hok.
    by destruct (config_ok_pipeline _ _ _ Hin Hok) as [? _].
  - intros Hcat Hexts pre post Hps Hpre. apply Validate_runs_to.
    eapply Validate_at_pipeline; [done..|].
    by apply pipeline_unknown_kind.
Qed.

(** *** The telemetry check is soft *)

Lemma agree_load {B} cfg1 cfg2 (k1 k2 : Config → stmt' B) :
  agree (designates cfg1) (designates cfg2) (k1 cfg1) (k2 cfg2) →
  agree (designates cfg1) (designates cfg2) (load ≫= k1) (load ≫= k2).
Proof.
  intros Hk w1 w2 H1 H2. unfold mbind, stmt_bind, seq, load.
  rewrite H1, H2. by apply Hk.
Qed.

(** Two runs of [Validate] that visit the maps in the same order, on
    configurations that differ in their telemetry settings at most, with
    any two telemetry hooks, take the same steps. *)
Lemma Validate_body_agree (telemetry_Validate' : TelemetryConfig → option error)
    o cfg1 cfg2 :
  alike cfg1 cfg2 →
  agree (designates cfg1) (designates cfg2)
    (Validate_body ValidateConfig telemetry_Validate o)
    (Validate_body ValidateConfig telemetry_Validate' o).
Proof.
  destruct cfg1 as [r1 e1 p1 x1 [t1 se1 sp1]].
  destruct cfg2 as [r2 e2 p2 x2 [t2 se2 sp2]].
  unfold alike. simpl. intros (-> & -> & -> & -> & -> & ->).
  unfold Validate_body. apply agree_load. simpl.
  apply agree_bind; [apply agree_when, agree_return|]. intros _.
  apply agree_bind.
  { apply agree_for_range. intros [id c] [].
    destruct (ValidateConfig c); [apply agree_return|apply agree_skip]. }
  intros _.
  apply agree_bind; [apply agree_when, agree_return|]. intros _.
  do 3 (apply agree_bind;
    [ apply agree_for_range; intros [id c] [];
      destruct (ValidateConfig c); [apply agree_return|apply agree_skip]
    | intros _ ]).
  unfold validateService. apply agree_load. simpl.
  apply agree_bind.
  { apply agree_for_range. intros ref []. apply agree_when, agree_return. }
  intros _.
  apply agree_bind; [apply agree_when, agree_return|]. intros _.
  apply agree_bind; [|intros _; apply agree_return].
  apply agree_for_range. intros [pipelineID pipeline] [].
  unfold validateService_pipeline. simpl.
  apply agree_bind; [apply agree_when, agree_return|]. intros _.
  apply agree_bind; [apply agree_deref|]. intros pl.
  apply agree_bind; [apply agree_when, agree_return|]. intros _.
  apply agree_bind.
  { apply agree_for_range. intros ref []. apply agree_when, agree_return. }
  intros _.
  apply agree_bind.
  { apply agree_for_range. intros ref procSet.
    apply agree_bind; [apply agree_when, agree_return|]. intros _.
    apply agree_bind; [apply agree_when, agree_return|]. intros _.
    apply agree_skip. }
  intros _.
  apply agree_bind; [apply agree_when, agree_return|]. intros _.
  apply agree_bind.
  { apply agree_for_range. intros ref []. apply agree_when, agree_return. }
  intros _.
  apply agree_runs with (Next tt).
  - destruct (telemetry_Validate t1); [apply runs_to_Printf|apply runs_to_skip].
  - destruct (telemetry_Validate' t2);
      [apply runs_to_Printf|apply runs_to_skip].
Qed.

Lemma Validate_agree (telemetry_Validate' : TelemetryConfig → option error)
    o w1 w2 :
  alike (config_at w1) (config_at w2) →
  (Validate ValidateConfig telemetry_Validate o w1).1
  = (Validate ValidateConfig telemetry_Validate' o w2).1.
Proof.
  intros Halike.
  apply (call_agree (designates (config_at w1)) (designates (config_at w2)));
    [done..|].
  by apply Validate_body_agree.
Qed.

(** The configuration is the same after the call. *)
Lemma Validate_frame o w :
  config_at (Validate ValidateConfig telemetry_Validate o w).2 = config_at w.
Proof.
  destruct (Validate_body_decides (config_at w) o)
    as [[_ Hrun]|[_ (r & _ & Hrun)]];
    by apply Validate_runs_to in Hrun as [_ ?].
Qed.

Lemma Validate_at_visited cfg o (pipelineID : ID) pipeline r :
  ranges o cfg → categories_ok ValidateConfig cfg → extensions_ok cfg →
  visited_first cfg o (pipelineID, pipeline) →
  runs_to (designates cfg)
    (validateService_pipeline telemetry_Validate cfg pipelineID pipeline)
    (Stop r) →
  runs_to (designates cfg)
    (Validate_body ValidateConfig telemetry_Validate o) (Stop r).
Proof.
  intros Ho Hcat Hexts (before & after & Hps & Hbefore) Hr.
  by eapply Validate_at_pipeline.
Qed.

Lemma absent_unresolved (m : gmap ID (option ConfigImpl)) ref : absent m ref → unresolved m ref.
Proof. unfold absent, unresolved, index. by intros ->. Qed.

Lemma mapped_to_nil_unresolved (m : gmap ID (option ConfigImpl)) ref : mapped_to_nil m ref → unresolved m ref.
Proof. unfold mapped_to_nil, unresolved, index. by intros ->. Qed.

Lemma unresolved_not_resolves (m : gmap ID (option ConfigImpl)) ref refs :
  unresolved m ref → ref ∈ refs → ¬ Forall (resolves m) refs.
Proof.
  intros Hun Hin Hall. eapply Forall_forall in Hall; [|exact Hin].
  unfold resolves, unresolved in *. congruence.
Qed.

Lemma first_missing_mono (missing missing' : gmap ID (option ConfigImpl) → ID → Prop)
    cfg o e :
  (∀ m ref, missing m ref → missing' m ref) →
  first_missing missing cfg o e → first_missing missing' cfg o e.
Proof.
  intros Hm [].
  - eapply missing_extension; eauto.
  - eapply missing_receiver; eauto.
  - eapply missing_processor; eauto.
  - eapply missing_exporter; eauto.
Qed.

Lemma some_missing_mono (missing missing' : gmap ID (option ConfigImpl) → ID → Prop)
    cfg :
  (∀ m ref, missing m ref → missing' m ref) →
  some_missing missing cfg → some_missing missing' cfg.
Proof.
  intros Hm [(ref & ? & ?)|(id & p & ref & ? & H)].
  - left. exists ref. eauto.
  - right. exists id, p, ref. split; [done|].
    destruct H as [[? ?]|[[? ?]|[? ?]]]; eauto.
Qed.

(** The error for the first reference that does not resolve. *)
Lemma Validate_first_unresolved o w e :
  ranges o (config_at w) → categories_ok ValidateConfig (config_at w) →
  first_missing unresolved (config_at w) o e →
  (Validate ValidateConfig telemetry_Validate o w).1 = Returns (Some e).
Proof.
  intros Ho Hcat Hfirst. apply Validate_runs_to. destruct Hfirst.
  - by eapply Validate_at_extension.
  - eapply Validate_at_visited; [done..|].
    by eapply pipeline_dangling_receiver.
  - eapply Validate_at_visited; [done..|].
    eapply pipeline_at_processor; [done..|]. by apply processor_dangling.
  - eapply Validate_at_visited; [done..|].
    by eapply pipeline_dangling_exporter.
Qed.

(** A reference that does not resolve is never accepted. *)
Lemma Validate_some_unresolved o w :
  ranges o (config_at w) → some_missing unresolved (config_at w) →
  (Validate ValidateConfig telemetry_Validate o w).1 ≠ Returns None.
Proof.
  intros Ho Hsome. apply Validate_refuses; [done|]. intros Hok.
  destruct Hsome as [(ref & Hin & Hun)|(id & p & ref & Hp & H)].
  - destruct Hok as (_ & Hexts & _). by eapply unresolved_not_resolves.
  - destruct (config_ok_pipeline _ _ _ Hp Hok)
      as (_ & p' & [= <-] & (_ & Hrs) & (Hps & _) & (_ & Hes)).
    destruct H as [[? ?]|[[? ?]|[? ?]]]; by eapply unresolved_not_resolves.
Qed.

(** C4, amended. A configuration with a pipeline that names a processor
    twice is never accepted. The error is the one for the repeated
    processor and the pipeline provided the checks that come first pass:
    those on the four categories, the extensions of the service resolve,
    every pipeline visited before this one is in order, the pipeline is
    of a known kind, its receivers are there and resolve, and the
    processors up to the repeated one resolve and are distinct. Nothing
    is asked of the exporters of the pipeline, or of the exporters of the
    configuration beyond the checks on the categories: the error comes
    before their checks. *)
Theorem Validate_duplicate_processor o w (pipelineID : ID)
    (pipeline : config.Pipeline) pre ref post :
  ranges o (config_at w) →
  Service.Pipelines (Service (config_at w)) !! pipelineID
  = Some (Some pipeline) →
  config.Processors pipeline = pre ++ ref :: post →
  ref ∈ pre →
  (Validate ValidateConfig telemetry_Validate o w).1 ≠ Returns None ∧
  (categories_ok ValidateConfig (config_at w) →
   extensions_ok (config_at w) →
   visited_first (config_at w) o (pipelineID, Some pipeline) →
   known_kind pipelineID →
   config.Receivers pipeline ≠ [] →
   Forall (resolves (Receivers (config_at w))) (config.Receivers pipeline) →
   Forall (resolves (Processors (config_at w))) pre →
   NoDup pre →
   (Validate ValidateConfig telemetry_Validate o w).1
   = Returns (Some (fmt_Errorf
       "pipeline %q references processor %q multiple times"
       [ArgID pipelineID; ArgID ref]))).
Proof.
  intros Ho Hin Hps Href. split.
  - apply Validate_refuses; [done|]. intros Hok.
    destruct (config_ok_pipeline _ _ _ Hin Hok)
      as (_ & p' & [= <-] & _ & (_ & Hnd) & _).
    rewrite Hps in Hnd. apply NoDup_app in Hnd as (_ & Hdisj & _).
    apply (Hdisj ref Href). left.
  - intros Hcat Hexts Hfirst Hkind Hne Hrs Hpre Hnd.
    apply Validate_runs_to. eapply Validate_at_visited; [done..|].
    eapply pipeline_at_processor; [done..|].
    apply processor_duplicate.
    + by eapply Forall_forall in Hpre.
    + apply seen_lookup. by left.
Qed.

(** C5, amended. A configuration in which the service or a pipeline
    names a component that has no entry in its top-level map is never
    accepted. The error is the one that names the pipeline and the
    missing component (the missing extension, for the service) provided
    the checks that come first pass: those on the four categories, and
    every check of [validateService] before the resolution of this
    reference, as [first_missing] lists them. *)
Theorem Validate_dangling_reference o w :
  ranges o (config_at w) →
  (some_missing absent (config_at w) →
   (Validate ValidateConfig telemetry_Validate o w).1 ≠ Returns None) ∧
  (categories_ok ValidateConfig (config_at w) →
   ∀ e, first_missing absent (config_at w) o e →
        (Validate ValidateConfig telemetry_Validate o w).1
        = Returns (Some e)).
Proof.
  intros Ho. split.
  - intros Hsome. apply Validate_some_unresolved; [done|].
    eapply some_missing_mono; [|exact Hsome]. apply absent_unresolved.
  - intros Hcat e Hfirst. apply Validate_first_unresolved; [done..|].
    eapply first_missing_mono; [|exact Hfirst]. apply absent_unresolved.
Qed.

(** C10, amended. A reference whose key is in the top-level map with a
    nil value does not resolve: such a configuration is never accepted,
    and the error is the one of a missing component, naming the pipeline
    and the reference, under the provisos of C5: the checks that come
    first pass. (With the key removed instead, those checks may go
    another way: the map may become empty, and the hook is no longer
    called on the nil value.) *)
Theorem Validate_nil_reference o w :
  ranges o (config_at w) →
  (some_missing mapped_to_nil (config_at w) →
   (Validate ValidateConfig telemetry_Validate o w).1 ≠ Returns None) ∧
  (categories_ok ValidateConfig (config_at w) →
   ∀ e, first_missing mapped_to_nil (config_at w) o e →
        (Validate ValidateConfig telemetry_Validate o w).1
        = Returns (Some e)).
Proof.
  intros Ho. split.
  - intros Hsome. apply Validate_some_unresolved; [done|].
    eapply some_missing_mono; [|exact Hsome]. apply mapped_to_nil_unresolved.
  - intros Hcat e Hfirst. apply Validate_first_unresolved; [done..|].
    eapply first_missing_mono; [|exact Hfirst].
    apply mapped_to_nil_unresolved.
Qed.

Lemma alike_refl cfg : alike cfg cfg.
Proof. by repeat split. Qed.

(** C8, amended. Of two calls of [Validate] in a row on the same
    configuration, the second returns what the first returned when both
    visit the maps in the same order; when the orders differ, both
    return a nil error or neither does. *)
Theorem Validate_twice o1 o2 w :
  let first := Validate ValidateConfig telemetry_Validate o1 w in
  let second := Validate ValidateConfig telemetry_Validate o2 first.2 in
  (o1 = o2 → second.1 = first.1) ∧
  (ranges o1 (config_at w) → ranges o2 (config_at w) →
   first.1 = Returns None ↔ second.1 = Returns None).
Proof.
  intros first second.
  assert (config_at first.2 = config_at w) as Hframe
    by apply Validate_frame.
  split.
  - intros <-. apply Validate_agree. rewrite Hframe. apply alike_refl.
  - intros H1 H2.
    assert (ranges o2 (config_at first.2)) as H2' by (by rewrite Hframe).
    unfold second. rewrite (Validate_nil_iff o2 _ H2'), Hframe.
    unfold first. by rewrite (Validate_nil_iff o1 w H1).
Qed.

(** C9. [Validate] leaves its input as it was: after the call the
    receiver pointer designates a configuration equal to the one before,
    the four maps and the service with its extensions, pipelines and
    telemetry settings. *)
Theorem Validate_leaves_config o w :
  let cfg := config_at w in
  let cfg' := config_at (Validate ValidateConfig telemetry_Validate o w).2 in
  cfg' = cfg ∧
  Receivers cfg' = Receivers cfg ∧ Exporters cfg' = Exporters cfg ∧
  Processors cfg' = Processors cfg ∧ Extensions cfg' = Extensions cfg ∧
  Service cfg' = Service cfg ∧
  Service.Extensions (Service cfg') = Service.Extensions (Service cfg) ∧
  Service.Pipelines (Service cfg') = Service.Pipelines (Service cfg).
Proof.
  intros cfg cfg'.
  assert (cfg' = cfg) as -> by apply Validate_frame. by repeat split.
Qed.

End ValidatorFacts.

(** ** Receiver factories *)

Import receiver.

Section ReceiverFacts.
Context {Ctx Settings Cfg Traces Metrics Logs : Type}.
Context {TracesReceiver MetricsReceiver LogsReceiver : Type}.
Context {CreateDefaultConfigFunc : Type}.
Variable ErrDataTypeIsNotSupported : error.

Abbreviation factoryOf :=
  (@receiverFactory Ctx Settings Cfg Traces Metrics Logs
     TracesReceiver MetricsReceiver LogsReceiver CreateDefaultConfigFunc).

(** A factory built without options supports no kind of data. *)
Lemma NewReceiverFactory_default (cfgType : Type_)
    (createDefaultConfig : CreateDefaultConfigFunc) :
  let factory : factoryOf :=
    NewReceiverFactory cfgType createDefaultConfig [] in
  embedded_CreateTracesReceiverFunc factory = None ∧
  embedded_CreateMetricsReceiverFunc factory = None ∧
  embedded_CreateLogsReceiverFunc factory = None ∧
  TracesReceiverStability factory = StabilityLevelUndefined ∧
  MetricsReceiverStability factory = StabilityLevelUndefined ∧
  LogsReceiverStability factory = StabilityLevelUndefined.
Proof. by repeat split. Qed.

(** None of the three methods calls a nil function. *)
Lemma Create_nil_no_panic ctx set (cfg : Cfg)
    (traces : Traces) (metrics : Metrics) (logs : Logs) :
  CreateTracesReceiver (TracesReceiver := TracesReceiver)
    ErrDataTypeIsNotSupported None ctx set cfg traces
  = Returns (None, Some ErrDataTypeIsNotSupported) ∧
  CreateMetricsReceiver (MetricsReceiver := MetricsReceiver)
    ErrDataTypeIsNotSupported None ctx set cfg metrics
  = Returns (None, Some ErrDataTypeIsNotSupported) ∧
  CreateLogsReceiver (LogsReceiver := LogsReceiver)
    ErrDataTypeIsNotSupported None (ctx : Ctx) (set : Settings) cfg logs
  = Returns (None, Some ErrDataTypeIsNotSupported).
Proof. by repeat split. Qed.

(** C6. A factory built with a [WithMetricsReceiver] option only: its
    traces and logs constructors return a nil receiver and
    [ErrDataTypeIsNotSupported], and do not panic; the stability of
    traces and of logs is the undefined level; its metrics constructor
    returns what the function given to the option returns. *)
Theorem NewReceiverFactory_metrics_only (cfgType : Type_)
    (createDefaultConfig : CreateDefaultConfigFunc)
    (createMetricsReceiver :
       Ctx * Settings * Cfg * Metrics
       → option MetricsReceiver * option error)
    (sl : StabilityLevel) :
  let factory : factoryOf :=
    NewReceiverFactory cfgType createDefaultConfig
      [WithMetricsReceiver (Some createMetricsReceiver) sl] in
  (∀ ctx set cfg nextConsumer,
     factory_CreateTracesReceiver ErrDataTypeIsNotSupported factory
       ctx set cfg nextConsumer
     = Returns (None, Some ErrDataTypeIsNotSupported)) ∧
  (∀ ctx set cfg nextConsumer,
     factory_CreateLogsReceiver ErrDataTypeIsNotSupported factory
       ctx set cfg nextConsumer
     = Returns (None, Some ErrDataTypeIsNotSupported)) ∧
  TracesReceiverStability factory = StabilityLevelUndefined ∧
  LogsReceiverStability factory = StabilityLevelUndefined ∧
  (∀ ctx set cfg nextConsumer,
     factory_CreateMetricsReceiver ErrDataTypeIsNotSupported factory
       ctx set cfg nextConsumer
     = Returns (createMetricsReceiver (ctx, set, cfg, nextConsumer))) ∧
  MetricsReceiverStability factory = sl.
Proof.
  intros factory. split_and!; try done.
Qed.

(** The option given a nil function leaves metrics unsupported, under the
    stability level it was given. *)
Lemma NewReceiverFactory_metrics_nil (cfgType : Type_)
    (createDefaultConfig : CreateDefaultConfigFunc) (sl : StabilityLevel)
    ctx set cfg nextConsumer :
  let factory : factoryOf :=
    NewReceiverFactory cfgType createDefaultConfig
      [WithMetricsReceiver None sl] in
  factory_CreateMetricsReceiver ErrDataTypeIsNotSupported factory
    ctx set cfg nextConsumer
  = Returns (None, Some ErrDataTypeIsNotSupported) ∧
  MetricsReceiverStability factory = sl.
Proof. done. Qed.

End ReceiverFacts.

(** ** The validator on the example configurations *)

Import examples.

Lemma ranges_listed (w : exampleWorld) : ranges (listed w) (config_at w).
Proof. by repeat split. Qed.

(** Decides a closed statement about the example configurations. *)
Ltac run :=
  vm_compute;
  repeat first [reflexivity | discriminate | econstructor | solve [inversion 1]].

(** The three examples of the spec. *)
Example spec_example_1 :
  (examples.Validate (listed no_exporter) no_exporter).1
  = Returns (Some errMissingExporters).
Proof. reflexivity. Qed.

Example spec_example_2 :
  (examples.Validate (listed twice) twice).1
  = Returns (Some (fmt_Errorf
      "pipeline %q references processor %q multiple times"
      [ArgID traces; ArgID batch])).
Proof. reflexivity. Qed.

Example spec_example_3 :
  (examples.Validate (listed of_profiles) of_profiles).1
  = Returns (Some (fmt_Errorf "unknown pipeline datatype %q for %v"
      [ArgType "profiles"; ArgID profiles])).
Proof. reflexivity. Qed.

Example in_order_accepted :
  (examples.Validate (listed in_order) in_order).1 = Returns None.
Proof. reflexivity. Qed.

(** A nil pipeline is dereferenced. *)
Example nil_pipeline_panics :
  (examples.Validate (listed nil_pipeline) nil_pipeline).1 = Panics.
Proof. reflexivity. Qed.

(** The pipeline of the examples is the first one visited. *)
Ltac first_visited := exists [], []; split; [reflexivity|constructor].

(** *** C1 *)

Lemma Validate_missing_category_witness :
  (examples.Validate (listed nothing) nothing).1
  = Returns (Some errMissingReceivers) ∧
  (examples.Validate (listed no_exporter) no_exporter).1
  = Returns (Some errMissingExporters).
Proof.
  split.
  - apply (proj1 (Validate_missing_category examples.ValidateConfig
                    examples.telemetry_Validate (listed nothing) nothing)).
    reflexivity.
  - apply (proj2 (Validate_missing_category examples.ValidateConfig
                    examples.telemetry_Validate (listed no_exporter)
                    no_exporter)).
    + apply ranges_listed.
    + vm_compute. lia.
    + vm_compute. repeat constructor.
    + reflexivity.
Defined.

(** Without receivers and without exporters, the error is the one for
    the receivers, not the one for the exporters. *)
Lemma Validate_missing_exporters_counterexample :
  ranges (listed nothing) (config_at nothing) ∧
  size (Exporters (config_at nothing)) = 0 ∧
  (examples.Validate (listed nothing) nothing).1
  = Returns (Some errMissingReceivers) ∧
  (examples.Validate (listed nothing) nothing).1
  ≠ Returns (Some errMissingExporters).
Proof. split; [apply ranges_listed|]. by vm_compute. Qed.

(** Without exporters, a receiver whose hook fails comes first too. *)
Example rejected_receiver_first :
  size (Exporters (config_at rejected_receiver)) = 0 ∧
  (examples.Validate (listed rejected_receiver) rejected_receiver).1
  = Returns (Some (fmt_Errorf "receiver %q has invalid configuration: %w"
      [ArgID otlp; ArgErr errRejected])).
Proof. by vm_compute. Qed.

(** *** C2 *)

Lemma Validate_missing_pipelines_witness :
  (examples.Validate (listed no_pipeline) no_pipeline).1
  = Returns (Some errMissingServicePipelines).
Proof.
  apply (Validate_missing_pipelines examples.ValidateConfig
           examples.telemetry_Validate (listed no_pipeline) no_pipeline).
  - apply ranges_listed.
  - run.
  - run.
  - reflexivity.
Defined.

(** Without pipelines, an extension of the service that is not
    configured comes first. *)
Lemma Validate_missing_pipelines_counterexample :
  ranges (listed no_pipeline_no_extension)
    (config_at no_pipeline_no_extension) ∧
  size (Service.Pipelines (Service (config_at no_pipeline_no_extension)))
  = 0 ∧
  (examples.Validate (listed no_pipeline_no_extension)
     no_pipeline_no_extension).1
  = Returns (Some (fmt_Errorf
      "service references extension %q which does not exist"
      [ArgID zpages])) ∧
  (examples.Validate (listed no_pipeline_no_extension)
     no_pipeline_no_extension).1
  ≠ Returns (Some errMissingServicePipelines).
Proof. split; [apply ranges_listed|]. by vm_compute. Qed.

(** *** C3 *)

Lemma Validate_unknown_kind_witness :
  (examples.Validate (listed of_profiles) of_profiles).1 ≠ Returns None ∧
  (examples.Validate (listed of_profiles) of_profiles).1
  = Returns (Some (fmt_Errorf "unknown pipeline datatype %q for %v"
      [ArgType "profiles"; ArgID profiles])).
Proof.
  assert (¬ known_kind profiles) as Hkind.
  { vm_compute. intros [H|[H|H]]; discriminate H. }
  split.
  - apply (proj1 (Validate_unknown_kind examples.ValidateConfig
                    examples.telemetry_Validate (listed of_profiles)
                    of_profiles profiles (pipeline [otlp] [] [otlp])
                    (ranges_listed _) eq_refl Hkind)).
  - apply (proj2 (Validate_unknown_kind examples.ValidateConfig
                    examples.telemetry_Validate (listed of_profiles)
                    of_profiles profiles (pipeline [otlp] [] [otlp])
                    (ranges_listed _) eq_refl Hkind)) with [] [].
    + run.
    + run.
    + reflexivity.
    + constructor.
Defined.

(** A pipeline of kind profiles, and an extension of the service that is
    not configured: the error is the one for the extension. *)
Lemma Validate_unknown_kind_counterexample :
  ranges (listed of_profiles_no_extension)
    (config_at of_profiles_no_extension) ∧
  Service.Pipelines (Service (config_at of_profiles_no_extension))
    !! profiles = Some (pipeline [otlp] [] [otlp]) ∧
  ¬ known_kind profiles ∧
  (examples.Validate (listed of_profiles_no_extension)
     of_profiles_no_extension).1
  = Returns (Some (fmt_Errorf
      "service references extension %q which does not exist"
      [ArgID zpages])).
Proof.
  split; [apply ranges_listed|]. split; [reflexivity|].
  split; [|reflexivity]. vm_compute. by intros [?|[?|?]].
Qed.

(** With two pipelines out of order, the error depends on which one the
    loop visits first. *)
Example unknown_kind_visited_second :
  let profiles_first :=
    pipelines_in [(profiles, pipeline [otlp] [] [otlp]);
                  (traces, pipeline [] [] [])] of_profiles_and_empty in
  let traces_first :=
    pipelines_in [(traces, pipeline [] [] []);
                  (profiles, pipeline [otlp] [] [otlp])]
      of_profiles_and_empty in
  ranges profiles_first (config_at of_profiles_and_empty) ∧
  ranges traces_first (config_at of_profiles_and_empty) ∧
  (examples.Validate profiles_first of_profiles_and_empty).1
  = Returns (Some (fmt_Errorf "unknown pipeline datatype %q for %v"
      [ArgType "profiles"; ArgID profiles])) ∧
  (examples.Validate traces_first of_profiles_and_empty).1
  = Returns (Some (fmt_Errorf "pipeline %q must have at least one receiver"
      [ArgID traces])).
Proof.
  intros profiles_first traces_first.
  assert (map_to_list
            (Service.Pipelines (Service (config_at of_profiles_and_empty)))
          ≡ₚ [(profiles, pipeline [otlp] [] [otlp]);
              (traces, pipeline [] [] [])]) as Hperm.
  { vm_compute. first [reflexivity | apply perm_swap]. }
  split_and!; try reflexivity.
  - repeat split; try reflexivity;
      simpl; rewrite Hperm; first [reflexivity | apply perm_swap].
  - repeat split; try reflexivity;
      simpl; rewrite Hperm; first [reflexivity | apply perm_swap].
Qed.

(** *** C4 *)

Lemma Validate_duplicate_processor_witness :
  (examples.Validate (listed twice) twice).1 ≠ Returns None ∧
  (examples.Validate (listed twice) twice).1
  = Returns (Some (fmt_Errorf
      "pipeline %q references processor %q multiple times"
      [ArgID traces; ArgID batch])) ∧
  (examples.Validate (listed twice_no_exporter) twice_no_exporter).1
  = Returns (Some (fmt_Errorf
      "pipeline %q references processor %q multiple times"
      [ArgID traces; ArgID batch])).
Proof.
  assert (batch ∈ [batch]) as Hin by left.
  split_and!.
  - apply (proj1 (Validate_duplicate_processor examples.ValidateConfig
                    examples.telemetry_Validate (listed twice) twice traces
                    {| config.Receivers := [otlp];
                       config.Processors := [batch; batch];
                       config.Exporters := [otlp] |} [batch] batch []
                    (ranges_listed _) eq_refl eq_refl Hin)).
  - apply (proj2 (Validate_duplicate_processor examples.ValidateConfig
                    examples.telemetry_Validate (listed twice) twice traces
                    {| config.Receivers := [otlp];
                       config.Processors := [batch; batch];
                       config.Exporters := [otlp] |} [batch] batch []
                    (ranges_listed _) eq_refl eq_refl Hin)).
    + run.
    + run.
    + first_visited.
    + by left.
    + discriminate.
    + run.
    + run.
    + run.
  - apply (proj2 (Validate_duplicate_processor examples.ValidateConfig
                    examples.telemetry_Validate (listed twice_no_exporter)
                    twice_no_exporter traces
                    {| config.Receivers := [otlp];
                       config.Processors := [batch; batch];
                       config.Exporters := [] |} [batch] batch []
                    (ranges_listed _) eq_refl eq_refl Hin)).
    + run.
    + run.
    + first_visited.
    + by left.
    + discriminate.
    + run.
    + run.
    + run.
Defined.

(** The processor twice in the pipeline, and not configured: the error
    is the one for a component that does not exist. *)
Lemma Validate_duplicate_processor_counterexample :
  ranges (listed twice_absent) (config_at twice_absent) ∧
  Service.Pipelines (Service (config_at twice_absent)) !! traces
  = Some (pipeline [otlp] [batch; batch] [otlp]) ∧
  (examples.Validate (listed twice_absent) twice_absent).1
  = Returns (Some (fmt_Errorf
      "pipeline %q references processor %q which does not exist"
      [ArgID traces; ArgID batch])) ∧
  (examples.Validate (listed twice_absent) twice_absent).1
  ≠ Returns (Some (fmt_Errorf
      "pipeline %q references processor %q multiple times"
      [ArgID traces; ArgID batch])).
Proof. split; [apply ranges_listed|]. by vm_compute. Qed.

(** *** C5 *)

Lemma Validate_dangling_reference_witness :
  (examples.Validate (listed absent_extension) absent_extension).1
  = Returns (Some (fmt_Errorf
      "service references extension %q which does not exist"
      [ArgID zpages])) ∧
  (examples.Validate (listed absent_receiver) absent_receiver).1
  = Returns (Some (fmt_Errorf
      "pipeline %q references receiver %q which does not exist"
      [ArgID traces; ArgID jaeger])) ∧
  (examples.Validate (listed absent_processor) absent_processor).1
  = Returns (Some (fmt_Errorf
      "pipeline %q references processor %q which does not exist"
      [ArgID traces; ArgID batch])) ∧
  (examples.Validate (listed absent_exporter) absent_exporter).1
  = Returns (Some (fmt_Errorf
      "pipeline %q references exporter %q which does not exist"
      [ArgID traces; ArgID jaeger])) ∧
  (examples.Validate (listed absent_receiver_no_exporter)
     absent_receiver_no_exporter).1 ≠ Returns None.
Proof.
  split_and!.
  - apply (proj2 (Validate_dangling_reference examples.ValidateConfig
                    examples.telemetry_Validate (listed absent_extension)
                    absent_extension (ranges_listed _))); [run|].
    apply (missing_extension _ _ _ [] zpages []); [reflexivity|run|run].
  - apply (proj2 (Validate_dangling_reference examples.ValidateConfig
                    examples.telemetry_Validate (listed absent_receiver)
                    absent_receiver (ranges_listed _))); [run|].
    apply (missing_receiver _ _ _ traces
             {| config.Receivers := [otlp; jaeger];
                config.Processors := [];
                config.Exporters := [otlp] |} [otlp] jaeger []);
      [run|first_visited|by left|reflexivity|run|run].
  - apply (proj2 (Validate_dangling_reference examples.ValidateConfig
                    examples.telemetry_Validate (listed absent_processor)
                    absent_processor (ranges_listed _))); [run|].
    apply (missing_processor _ _ _ traces
             {| config.Receivers := [otlp];
                config.Processors := [batch];
                config.Exporters := [otlp] |} [] batch []);
      [run|first_visited|by left|done|run|reflexivity|run|run|run].
  - apply (proj2 (Validate_dangling_reference examples.ValidateConfig
                    examples.telemetry_Validate (listed absent_exporter)
                    absent_exporter (ranges_listed _))); [run|].
    apply (missing_exporter _ _ _ traces
             {| config.Receivers := [otlp];
                config.Processors := [];
                config.Exporters := [otlp; jaeger] |} [otlp] jaeger []);
      [run|first_visited|by left|done|run|run|run|reflexivity|run|run].
  - apply (proj1 (Validate_dangling_reference examples.ValidateConfig
                    examples.telemetry_Validate
                    (listed absent_receiver_no_exporter)
                    absent_receiver_no_exporter (ranges_listed _))).
    right. exists traces,
      {| config.Receivers := [jaeger];
         config.Processors := [];
         config.Exporters := [otlp] |}, jaeger.
    split; [reflexivity|]. left. split; [by left|run].
Defined.

(** A pipeline names a receiver that is not configured, and no exporter
    is configured at all: the error is the one for the exporters. *)
Lemma Validate_dangling_reference_counterexample :
  ranges (listed absent_receiver_no_exporter)
    (config_at absent_receiver_no_exporter) ∧
  Service.Pipelines (Service (config_at absent_receiver_no_exporter))
    !! traces = Some (pipeline [jaeger] [] [otlp]) ∧
  Receivers (config_at absent_receiver_no_exporter) !! jaeger = None ∧
  (examples.Validate (listed absent_receiver_no_exporter)
     absent_receiver_no_exporter).1
  = Returns (Some errMissingExporters) ∧
  (examples.Validate (listed absent_receiver_no_exporter)
     absent_receiver_no_exporter).1
  ≠ Returns (Some (fmt_Errorf
      "pipeline %q references receiver %q which does not exist"
      [ArgID traces; ArgID jaeger])).
Proof. split; [apply ranges_listed|]. by vm_compute. Qed.

(** *** C10 *)

Lemma Validate_nil_reference_witness :
  (examples.Validate (listed nil_extension) nil_extension).1
  = Returns (Some (fmt_Errorf
      "service references extension %q which does not exist"
      [ArgID zpages])) ∧
  (examples.Validate (listed nil_receiver) nil_receiver).1
  = Returns (Some (fmt_Errorf
      "pipeline %q references receiver %q which does not exist"
      [ArgID traces; ArgID otlp])) ∧
  (examples.Validate (listed nil_processor) nil_processor).1
  = Returns (Some (fmt_Errorf
      "pipeline %q references processor %q which does not exist"
      [ArgID traces; ArgID batch])) ∧
  (examples.Validate (listed nil_exporter) nil_exporter).1
  = Returns (Some (fmt_Errorf
      "pipeline %q references exporter %q which does not exist"
      [ArgID traces; ArgID otlp])) ∧
  (examples.Validate (listed nil_receiver_no_exporter)
     nil_receiver_no_exporter).1 ≠ Returns None.
Proof.
  split_and!.
  - apply (proj2 (Validate_nil_reference examples.ValidateConfig
                    examples.telemetry_Validate (listed nil_extension)
                    nil_extension (ranges_listed _))); [run|].
    apply (missing_extension _ _ _ [] zpages []); [reflexivity|run|run].
  - apply (proj2 (Validate_nil_reference examples.ValidateConfig
                    examples.telemetry_Validate (listed nil_receiver)
                    nil_receiver (ranges_listed _))); [run|].
    apply (missing_receiver _ _ _ traces
             {| config.Receivers := [otlp];
                config.Processors := [];
                config.Exporters := [otlp] |} [] otlp []);
      [run|first_visited|by left|reflexivity|run|run].
  - apply (proj2 (Validate_nil_reference examples.ValidateConfig
                    examples.telemetry_Validate (listed nil_processor)
                    nil_processor (ranges_listed _))); [run|].
    apply (missing_processor _ _ _ traces
             {| config.Receivers := [otlp];
                config.Processors := [batch];
                config.Exporters := [otlp] |} [] batch []);
      [run|first_visited|by left|done|run|reflexivity|run|run|run].
  - apply (proj2 (Validate_nil_reference examples.ValidateConfig
                    examples.telemetry_Validate (listed nil_exporter)
                    nil_exporter (ranges_listed _))); [run|].
    apply (missing_exporter _ _ _ traces
             {| config.Receivers := [otlp];
                config.Processors := [];
                config.Exporters := [otlp] |} [] otlp []);
      [run|first_visited|by left|done|run|run|run|reflexivity|run|run].
  - apply (proj1 (Validate_nil_reference examples.ValidateConfig
                    examples.telemetry_Validate
                    (listed nil_receiver_no_exporter)
                    nil_receiver_no_exporter (ranges_listed _))).
    right. exists traces,
      {| config.Receivers := [otlp];
         config.Processors := [];
         config.Exporters := [otlp] |}, otlp.
    split; [reflexivity|]. left. split; [by left|run].
Defined.

(** A pipeline names a receiver configured as nil, and no exporter is
    configured at all: the error is the one for the exporters. *)
Lemma Validate_nil_reference_counterexample :
  ranges (listed nil_receiver_no_exporter)
    (config_at nil_receiver_no_exporter) ∧
  Service.Pipelines (Service (config_at nil_receiver_no_exporter))
    !! traces = Some (pipeline [otlp] [] [otlp]) ∧
  Receivers (config_at nil_receiver_no_exporter) !! otlp = Some None ∧
  (examples.Validate (listed nil_receiver_no_exporter)
     nil_receiver_no_exporter).1
  = Returns (Some errMissingExporters) ∧
  (examples.Validate (listed nil_receiver_no_exporter)
     nil_receiver_no_exporter).1
  ≠ Returns (Some (fmt_Errorf
      "pipeline %q references receiver %q which does not exist"
      [ArgID traces; ArgID otlp])).
Proof. split; [apply ranges_listed|]. by vm_compute. Qed.

(** The nil receiver and the same configuration with the key removed do
    not get the same error: without the key there is no receiver left. *)
Example nil_is_not_removed :
  (examples.Validate (listed nil_receiver) nil_receiver).1
  = Returns (Some (fmt_Errorf
      "pipeline %q references receiver %q which does not exist"
      [ArgID traces; ArgID otlp])) ∧
  (examples.Validate (listed nil_receiver_removed) nil_receiver_removed).1
  = Returns (Some errMissingReceivers).
Proof. by vm_compute. Qed.

(** *** Telemetry *)

(** The failure of the telemetry check is printed, once for the one
    pipeline, and the call returns nil. *)
Example telemetry_failure_printed :
  examples.Validate (listed in_order) (with_telemetry false in_order)
  = (Returns None,
     {| config_at := config_at (with_telemetry false in_order);
        stdout := [("telemetry config validation failed, %v\n",
                    [ArgErr errTelemetry])] |}).
Proof. reflexivity. Qed.

(** *** C8 *)

Lemma Validate_twice_witness :
  let first := examples.Validate (listed in_order) in_order in
  let second := examples.Validate (listed in_order) first.2 in
  second.1 = first.1 ∧ (first.1 = Returns None ↔ second.1 = Returns None).
Proof.
  intros first second. split.
  - apply (proj1 (Validate_twice examples.ValidateConfig
                    examples.telemetry_Validate (listed in_order)
                    (listed in_order) in_order) eq_refl).
  - apply (proj2 (Validate_twice examples.ValidateConfig
                    examples.telemetry_Validate (listed in_order)
                    (listed in_order) in_order));
      apply ranges_listed.
Defined.

(** Two receivers whose hooks fail: the second call, visiting them in
    the other order, returns another error than the first. *)
Lemma Validate_twice_counterexample :
  let otlp_first :=
    receivers_in [(otlp, Some rejected); (jaeger, Some rejected)]
      two_rejected in
  let jaeger_first :=
    receivers_in [(jaeger, Some rejected); (otlp, Some rejected)]
      two_rejected in
  let first := examples.Validate otlp_first two_rejected in
  let second := examples.Validate jaeger_first first.2 in
  ranges otlp_first (config_at two_rejected) ∧
  ranges jaeger_first (config_at two_rejected) ∧
  config_at first.2 = config_at two_rejected ∧
  first.1 = Returns (Some (fmt_Errorf
    "receiver %q has invalid configuration: %w"
    [ArgID otlp; ArgErr errRejected])) ∧
  second.1 = Returns (Some (fmt_Errorf
    "receiver %q has invalid configuration: %w"
    [ArgID jaeger; ArgErr errRejected])) ∧
  second.1 ≠ first.1.
Proof.
  intros otlp_first jaeger_first first second.
  assert (map_to_list (Receivers (config_at two_rejected))
          ≡ₚ [(otlp, Some rejected); (jaeger, Some rejected)]) as Hperm.
  { vm_compute. first [reflexivity | apply perm_swap]. }
  split_and!; try reflexivity.
  - repeat split; try reflexivity;
      simpl; rewrite Hperm; first [reflexivity | apply perm_swap].
  - repeat split; try reflexivity;
      simpl; rewrite Hperm; first [reflexivity | apply perm_swap].
  - by vm_compute.
Qed.

(** * More of the code *)

(** ** Receiver factories: how options compose *)

Section ReceiverOptionFacts.
Context {Ctx Settings Cfg Traces Metrics Logs : Type}.
Context {TracesReceiver MetricsReceiver LogsReceiver : Type}.
Context {CreateDefaultConfigFunc : Type}.
Variable ErrDataTypeIsNotSupported : error.

Abbreviation factoryOf' :=
  (@receiverFactory Ctx Settings Cfg Traces Metrics Logs
     TracesReceiver MetricsReceiver LogsReceiver CreateDefaultConfigFunc).
Abbreviation optionOf :=
  (@ReceiverFactoryOption Ctx Settings Cfg Traces Metrics Logs
     TracesReceiver MetricsReceiver LogsReceiver CreateDefaultConfigFunc).

Implicit Types (options : list optionOf) (opt : optionOf).

(** One more option applies to the factory the others built. *)
Lemma NewReceiverFactory_snoc (cfgType : Type_)
    (createDefaultConfig : CreateDefaultConfigFunc) options opt :
  NewReceiverFactory cfgType createDefaultConfig (options ++ [opt])
  = opt (NewReceiverFactory cfgType createDefaultConfig options).
Proof. unfold NewReceiverFactory. by rewrite foldl_app. Qed.

(** X6. After any options the package offers, the last option for a
    kind of data decides that kind, and leaves the two other kinds, the
    type and the default configuration as the options before it made
    them. *)
Theorem NewReceiverFactory_last_option (cfgType : Type_)
    (createDefaultConfig : CreateDefaultConfigFunc) options
    (sl : StabilityLevel) :
  Forall (λ opt, ∃ kind, sets opt kind) options →
  let before : factoryOf' :=
    NewReceiverFactory cfgType createDefaultConfig options in
  (∀ f,
     let after : factoryOf' :=
       NewReceiverFactory cfgType createDefaultConfig
         (options ++ [WithTracesReceiver f sl]) in
     factory_CreateTracesReceiver ErrDataTypeIsNotSupported after
     = CreateTracesReceiver ErrDataTypeIsNotSupported f ∧
     TracesReceiverStability after = sl ∧
     factory_CreateMetricsReceiver ErrDataTypeIsNotSupported after
     = factory_CreateMetricsReceiver ErrDataTypeIsNotSupported before ∧
     MetricsReceiverStability after = MetricsReceiverStability before ∧
     factory_CreateLogsReceiver ErrDataTypeIsNotSupported after
     = factory_CreateLogsReceiver ErrDataTypeIsNotSupported before ∧
     LogsReceiverStability after = LogsReceiverStability before ∧
     embedded_baseFactory after = embedded_baseFactory before) ∧
  (∀ f,
     let after : factoryOf' :=
       NewReceiverFactory cfgType createDefaultConfig
         (options ++ [WithMetricsReceiver f sl]) in
     factory_CreateMetricsReceiver ErrDataTypeIsNotSupported after
     = CreateMetricsReceiver ErrDataTypeIsNotSupported f ∧
     MetricsReceiverStability after = sl ∧
     factory_CreateTracesReceiver ErrDataTypeIsNotSupported after
     = factory_CreateTracesReceiver ErrDataTypeIsNotSupported before ∧
     TracesReceiverStability after = TracesReceiverStability before ∧
     factory_CreateLogsReceiver ErrDataTypeIsNotSupported after
     = factory_CreateLogsReceiver ErrDataTypeIsNotSupported before ∧
     LogsReceiverStability after = LogsReceiverStability before ∧
     embedded_baseFactory after = embedded_baseFactory before) ∧
  (∀ f,
     let after : factoryOf' :=
       NewReceiverFactory cfgType createDefaultConfig
         (options ++ [WithLogsReceiver f sl]) in
     factory_CreateLogsReceiver ErrDataTypeIsNotSupported after
     = CreateLogsReceiver ErrDataTypeIsNotSupported f ∧
     LogsReceiverStability after = sl ∧
     factory_CreateTracesReceiver ErrDataTypeIsNotSupported after
     = factory_CreateTracesReceiver ErrDataTypeIsNotSupported before ∧
     TracesReceiverStability after = TracesReceiverStability before ∧
     factory_CreateMetricsReceiver ErrDataTypeIsNotSupported after
     = factory_CreateMetricsReceiver ErrDataTypeIsNotSupported before ∧
     MetricsReceiverStability after = MetricsReceiverStability before ∧
     embedded_baseFactory after = embedded_baseFactory before).
Proof.
  intros _ before. split_and!; intros f after; unfold after;
    rewrite NewReceiverFactory_snoc; by repeat split.
Qed.

(** X7. Options for two different kinds of data commute: after the same
    options, all of them options the package offers, the one order
    builds the factory the other builds. *)
Theorem NewReceiverFactory_options_commute (cfgType : Type_)
    (createDefaultConfig : CreateDefaultConfigFunc) options
    createTraces createMetrics createLogs (st sm sg : StabilityLevel) :
  Forall (λ opt, ∃ kind, sets opt kind) options →
  let new := NewReceiverFactory cfgType createDefaultConfig in
  let traces : optionOf := WithTracesReceiver createTraces st in
  let metrics : optionOf := WithMetricsReceiver createMetrics sm in
  let logs : optionOf := WithLogsReceiver createLogs sg in
  new (options ++ [traces; metrics]) = new (options ++ [metrics; traces]) ∧
  new (options ++ [traces; logs]) = new (options ++ [logs; traces]) ∧
  new (options ++ [metrics; logs]) = new (options ++ [logs; metrics]).
Proof.
  intros _ new traces metrics logs. unfold new, NewReceiverFactory.
  by rewrite !foldl_app.
Qed.

(** The options the package offers never touch the type and the default
    configuration of the factory. *)
Lemma sets_baseFactory opt kind (r : factoryOf') :
  sets opt kind → embedded_baseFactory (opt r) = embedded_baseFactory r.
Proof. by intros []. Qed.

(** X8. Whatever options the package offers are given, in whatever
    number and order: the factory keeps the type and the default
    configuration it was built with, and a kind of data that no option
    sets stays unsupported, at the undefined stability level. *)
Theorem NewReceiverFactory_unset_kind (cfgType : Type_)
    (createDefaultConfig : CreateDefaultConfigFunc) options :
  let factory : factoryOf' :=
    NewReceiverFactory cfgType createDefaultConfig options in
  (Forall (λ opt, ∃ kind, sets opt kind) options →
   embedded_baseFactory factory
   = {| cfgType := cfgType; createDefaultConfig := createDefaultConfig |}) ∧
  (Forall (λ opt, sets opt DataTypeMetrics ∨ sets opt DataTypeLogs) options →
   TracesReceiverStability factory = StabilityLevelUndefined ∧
   ∀ ctx set cfg nextConsumer,
     factory_CreateTracesReceiver ErrDataTypeIsNotSupported factory
       ctx set cfg nextConsumer
     = Returns (None, Some ErrDataTypeIsNotSupported)) ∧
  (Forall (λ opt, sets opt DataTypeTraces ∨ sets opt DataTypeLogs) options →
   MetricsReceiverStability factory = StabilityLevelUndefined ∧
   ∀ ctx set cfg nextConsumer,
     factory_CreateMetricsReceiver ErrDataTypeIsNotSupported factory
       ctx set cfg nextConsumer
     = Returns (None, Some ErrDataTypeIsNotSupported)) ∧
  (Forall (λ opt, sets opt DataTypeTraces ∨ sets opt DataTypeMetrics) options →
   LogsReceiverStability factory = StabilityLevelUndefined ∧
   ∀ ctx set cfg nextConsumer,
     factory_CreateLogsReceiver ErrDataTypeIsNotSupported factory
       ctx set cfg nextConsumer
     = Returns (None, Some ErrDataTypeIsNotSupported)).
Proof.
  intros factory. unfold factory. clear factory.
  induction options as [|opt options IH] using rev_ind.
  { by repeat split. }
  rewrite NewReceiverFactory_snoc.
  destruct IH as (IHb & IHt & IHm & IHl).
  split_and!; rewrite Forall_app, Forall_singleton.
  - intros [Hall [kind Hopt]]. rewrite <- (IHb Hall).
    by eapply sets_baseFactory.
  - intros [Hall Hopt]. destruct (IHt Hall) as [Hs Hc].
    destruct Hopt as [Hopt|Hopt]; inversion Hopt; subst;
      (split; [exact Hs|exact Hc]).
  - intros [Hall Hopt]. destruct (IHm Hall) as [Hs Hc].
    destruct Hopt as [Hopt|Hopt]; inversion Hopt; subst;
      (split; [exact Hs|exact Hc]).
  - intros [Hall Hopt]. destruct (IHl Hall) as [Hs Hc].
    destruct Hopt as [Hopt|Hopt]; inversion Hopt; subst;
      (split; [exact Hs|exact Hc]).
Qed.

End ReceiverOptionFacts.

(** ** Extension factories *)

Import extension.

Section ExtensionFacts.
Context {Ctx Settings Cfg Extension CreateDefaultConfigFunc : Type}.

(** X9. An extension factory hands the call to the function it was
    built with, and reports the stability level it was built with; built
    with a nil function, its [CreateExtension] panics: unlike the methods
    of a receiver factory, it does not test for nil. *)
Theorem NewExtensionFactory_create (cfgType : Type_)
    (createDefaultConfig : CreateDefaultConfigFunc)
    (sl : StabilityLevel) (ctx : Ctx) (set : Settings) (cfg : Cfg) :
  (∀ createServiceExtension :
       Ctx * Settings * Cfg → option Extension * option error,
     let ef :=
       NewExtensionFactory cfgType createDefaultConfig
         (Some createServiceExtension) sl in
     factory_CreateExtension ef ctx set cfg
     = Returns (createServiceExtension (ctx, set, cfg)) ∧
     ExtensionStability ef = sl) ∧
  (let ef :=
     NewExtensionFactory (Extension := Extension) cfgType
       createDefaultConfig None sl in
   factory_CreateExtension ef ctx set cfg = Panics ∧
   ExtensionStability ef = sl).
Proof. by split_and!. Qed.

End ExtensionFacts.

(** ** The client authenticator *)

Import auth.

Section ClientFacts.
Context {Ctx Host RoundTripper PerRPCCredentials : Type}.

Abbreviation clientOf :=
  (@defaultClient Ctx Host RoundTripper PerRPCCredentials).
Abbreviation clientOption :=
  (@ClientOption Ctx Host RoundTripper PerRPCCredentials).

Implicit Types (options : list clientOption) (bc : clientOf).

Lemma apply_options_app options options' bc :
  apply_options (options ++ options') bc
  = match apply_options options bc with
    | Returns bc' => apply_options options' bc'
    | Panics => Panics
    end.
Proof.
  revert bc. induction options as [|[op|] options IH]; intros bc; simpl;
    [done| |done]. apply IH.
Qed.

(** X10. A client built without options does nothing and fails at
    nothing: [Start] and [Shutdown] return a nil error, [RoundTripper]
    returns the round tripper it is given, [PerRPCCredentials] returns
    nil credentials, each with a nil error. *)
Theorem NewClient_defaults :
  ∃ a : clientOf,
    NewClient [] = Returns a ∧
    (∀ ctx host, Start a ctx host = Returns None) ∧
    (∀ ctx, Shutdown a ctx = Returns None) ∧
    (∀ base, RoundTripper_ a base = Returns (base, None)) ∧
    PerRPCCredentials_ a = Returns (None, None).
Proof. eexists. by repeat split. Qed.


Lemma apply_options_complete options bc :
  Forall offered options → complete bc →
  ∃ a, apply_options options bc = Returns a ∧ complete a.
Proof.
  intros Hall. revert bc. induction Hall as [|op options Hop _ IH];
    intros bc Hbc; simpl; [by exists bc|].
  destruct Hbc as (? & ? & ? & ?).
  destruct Hop; simpl; apply IH; by repeat split.
Qed.

(** X12. Built with any number of the options the package offers, each
    given a function that is not nil, [NewClient] returns a client, and
    none of its four operations panics. *)
Theorem NewClient_offered options :
  Forall offered options →
  ∃ a : clientOf,
    NewClient options = Returns a ∧
    (∀ ctx host, Start a ctx host ≠ Panics) ∧
    (∀ ctx, Shutdown a ctx ≠ Panics) ∧
    (∀ base, RoundTripper_ a base ≠ Panics) ∧
    PerRPCCredentials_ a ≠ Panics.
Proof.
  intros Hall.
  destruct (apply_options_complete options
              {| embedded_StartFunc := Some (λ _ : Ctx * Host, None);
                 embedded_ShutdownFunc := Some (λ _ : Ctx, None);
                 roundTripperFunc :=
                   Some (λ base : option RoundTripper, (base, None));
                 perRPCCredentialsFunc :=
                   Some (λ _ : unit, (@None PerRPCCredentials, None)) |}
              Hall) as (a & Ha & [f Hf] & [g Hg] & [h Hh] & [c Hc]).
  { by repeat split. }
  exists a. split; [exact Ha|].
  unfold Start, Shutdown, RoundTripper_, PerRPCCredentials_.
  rewrite Hf, Hg, Hh, Hc. by repeat split.
Qed.

(** X13. The last option decides its operation and leaves the three
    others as the options before it made them. Given a nil function, it
    makes its operation panic: the operations call the functions with no
    test for nil. *)
Theorem NewClient_last_option options (a : clientOf) :
  NewClient options = Returns a →
  (∀ f, ∃ a', NewClient (options ++ [WithClientStart f]) = Returns a' ∧
     (∀ ctx host, Start a' ctx host = invoke f (ctx, host)) ∧
     Shutdown a' = Shutdown a ∧ RoundTripper_ a' = RoundTripper_ a ∧
     PerRPCCredentials_ a' = PerRPCCredentials_ a) ∧
  (∀ f, ∃ a', NewClient (options ++ [WithClientShutdown f]) = Returns a' ∧
     (∀ ctx, Shutdown a' ctx = invoke f ctx) ∧
     Start a' = Start a ∧ RoundTripper_ a' = RoundTripper_ a ∧
     PerRPCCredentials_ a' = PerRPCCredentials_ a) ∧
  (∀ f, ∃ a', NewClient (options ++ [WithClientRoundTripper f]) = Returns a' ∧
     (∀ base, RoundTripper_ a' base = invoke f base) ∧
     Start a' = Start a ∧ Shutdown a' = Shutdown a ∧
     PerRPCCredentials_ a' = PerRPCCredentials_ a) ∧
  (∀ f, ∃ a', NewClient (options ++ [WithPerRPCCredentials f]) = Returns a' ∧
     PerRPCCredentials_ a' = invoke f tt ∧
     Start a' = Start a ∧ Shutdown a' = Shutdown a ∧
     RoundTripper_ a' = RoundTripper_ a).
Proof.
  unfold NewClient. intros Ha.
  split_and!; intros f; rewrite apply_options_app, Ha; simpl;
    eexists; (split; [reflexivity|]); by repeat split.
Qed.

End ClientFacts.

(** ** More on the validator *)

Section NeverFacts.
Context {World R : Type} (I : World → Prop).

Lemma silent_skip {A} (a : A) : silent I (mret a : stmt World R A).
Proof. intros w Hw. done. Qed.

Lemma silent_return {A} (r : R) : silent I (return_ r : stmt World R A).
Proof. intros w Hw. done. Qed.

Lemma silent_when (cond : bool) (r : R) :
  silent I (when cond (return_ r) : stmt World R unit).
Proof. destruct cond; [apply silent_return|apply (silent_skip tt)]. Qed.

Lemma silent_deref {A} (p : option A) : silent I (deref p : stmt World R A).
Proof. intros w Hw. by destruct p. Qed.

Lemma silent_bind {A B} (m : stmt World R A) (k : A → stmt World R B) :
  silent I m → (∀ a, silent I (k a)) → silent I (m ≫= k).
Proof.
  intros Hm Hk w Hw. specialize (Hm w Hw). unfold mbind, stmt_bind, seq.
  destruct (m w) as [[a|o'] w']; simpl in *; subst w'; [by apply Hk|done].
Qed.

Lemma silent_for_range {X S} (body : X → S → stmt World R S) xs acc :
  (∀ x acc, silent I (body x acc)) → silent I (for_range xs body acc).
Proof.
  intros Hbody. revert acc. induction xs as [|x xs IH]; intros acc.
  - apply (silent_skip acc).
  - apply (silent_bind (body x acc)); [apply Hbody|apply IH].
Qed.

Lemma call_silent (body : stmt World R Empty_set) w :
  I w → silent I body → (call body w).2 = w.
Proof.
  intros Hw Hb. specialize (Hb w Hw). unfold call.
  by destruct (body w) as [[[]|o'] w'].
Qed.

(** A statement that takes a step and is silent lands where it
    started. *)
Lemma lands_silent {A} (m : stmt World R A) s :
  runs_to I m s → silent I m → lands I m s (λ w, w).
Proof.
  intros Hr Hs w Hw. destruct (Hr w Hw) as [E _]. specialize (Hs w Hw).
  destruct (m w) as [s' w']; simpl in *. by subst.
Qed.

Lemma lands_bind {A B} (m : stmt World R A) (k : A → stmt World R B)
    a s f g :
  lands I m (Next a) f → (∀ w, I w → I (f w)) → lands I (k a) s g →
  lands I (m ≫= k) s (λ w, g (f w)).
Proof.
  intros Hm Hf Hk w Hw. unfold mbind, stmt_bind, seq.
  rewrite (Hm w Hw). by apply Hk, Hf.
Qed.

Lemma lands_bind_silent {A B} (m : stmt World R A) (k : A → stmt World R B)
    a s g :
  runs_to I m (Next a) → silent I m → lands I (k a) s g →
  lands I (m ≫= k) s g.
Proof.
  intros Hr Hs Hk.
  by apply (lands_bind m k a s (λ w, w) g); [apply lands_silent| |].
Qed.

(** A loop without local state whose body lands at [f] for every
    element lands at as many rounds of [f] as there are elements. *)
Lemma lands_for_range {X} (body : X → unit → stmt World R unit) xs f :
  (∀ w, I w → I (f w)) →
  (∀ x, x ∈ xs → lands I (body x tt) (Next tt) f) →
  lands I (for_range xs body tt) (Next tt) (Nat.iter (length xs) f).
Proof.
  intros Hf. induction xs as [|x xs IH]; intros Hbody w Hw; [done|].
  change (for_range (x :: xs) body tt) with (body x tt ≫= for_range xs body).
  unfold mbind, stmt_bind, seq. rewrite (Hbody x); [|left|done].
  rewrite IH; [| |by apply Hf].
  - simpl. by rewrite Nat.iter_swap.
  - intros y Hy. apply Hbody. by right.
Qed.

Lemma trails_silent {A} (f : World → World) (m : stmt World R A) :
  silent I m → trails I f m.
Proof. intros Hs w Hw. exists 0. by apply Hs. Qed.

Lemma iter_keeps (f : World → World) n w :
  (∀ w, I w → I (f w)) → I w → I (Nat.iter n f w).
Proof. intros Hf Hw. induction n as [|n IH]; [done|]. by apply Hf. Qed.

Lemma trails_bind {A B} (f : World → World) (m : stmt World R A)
    (k : A → stmt World R B) :
  (∀ w, I w → I (f w)) →
  trails I f m → (∀ a, trails I f (k a)) → trails I f (m ≫= k).
Proof.
  intros Hf Hm Hk w Hw. destruct (Hm w Hw) as [n Hn].
  unfold mbind, stmt_bind, seq.
  destruct (m w) as [[a|o'] w']; simpl in *; subst w'; [|by exists n].
  destruct (Hk a (Nat.iter n f w)) as [n' Hn']; [by apply iter_keeps|].
  exists (n' + n). by rewrite Hn', Nat.iter_add.
Qed.

Lemma trails_for_range {X S} (f : World → World)
    (body : X → S → stmt World R S) xs acc :
  (∀ w, I w → I (f w)) →
  (∀ x acc, trails I f (body x acc)) → trails I f (for_range xs body acc).
Proof.
  intros Hf Hbody. revert acc. induction xs as [|x xs IH]; intros acc.
  - apply trails_silent, (silent_skip acc).
  - apply (trails_bind f (body x acc)); [done|apply Hbody|apply IH].
Qed.

Lemma call_trails (f : World → World) (body : stmt World R Empty_set) w :
  I w → trails I f body → ∃ n, (call body w).2 = Nat.iter n f w.
Proof.
  intros Hw Hb. destruct (Hb w Hw) as [n Hn]. exists n. unfold call.
  by destruct (body w) as [[[]|o'] w'].
Qed.

End NeverFacts.

Section ValidatorMore.
Context {ConfigImpl TelemetryConfig : Type}.
Variable ValidateConfig : option ConfigImpl → option error.
Variable telemetry_Validate : TelemetryConfig → option error.

Abbreviation Config := (Config ConfigImpl TelemetryConfig).
Abbreviation world := (world ConfigImpl TelemetryConfig).
Abbreviation rangeOrder := (rangeOrder ConfigImpl).
Abbreviation stmt' := (stmt world (option error)).
Abbreviation Validate' :=
  (service.Validate ValidateConfig telemetry_Validate).

Implicit Types (cfg : Config) (w : world) (o : rangeOrder).

Lemma Forall_map_to_list {V} (P : ID * V → Prop) (m : gmap ID V) :
  Forall P (map_to_list m) ↔ ∀ id v, m !! id = Some v → P (id, v).
Proof.
  rewrite Forall_forall. split.
  - intros H id v Hin. by apply H, elem_of_map_to_list.
  - intros H [id v] Hin. by apply H, elem_of_map_to_list.
Qed.

(** X1. [Validate] returns a nil error exactly for the configurations in
    which: there is a receiver and an exporter; the hook of every
    receiver, exporter, processor and extension passes; every extension
    of the service resolves; there is a pipeline; and every pipeline is
    of a known kind, is not nil, has a receiver and an exporter, only
    references that resolve, and no processor twice. The order of the
    visits does not matter. *)
Theorem Validate_accepts_iff o w :
  let cfg := config_at w in
  ranges o cfg →
  (Validate' o w).1 = Returns None ↔
  (Receivers cfg ≠ ∅ ∧ Exporters cfg ≠ ∅) ∧
  (∀ id c,
     Receivers cfg !! id = Some c ∨ Exporters cfg !! id = Some c ∨
     Processors cfg !! id = Some c ∨ Extensions cfg !! id = Some c →
     ValidateConfig c = None) ∧
  (∀ ref, ref ∈ Service.Extensions (Service cfg) →
          resolves (Extensions cfg) ref) ∧
  Service.Pipelines (Service cfg) ≠ ∅ ∧
  (∀ pipelineID pipeline,
     Service.Pipelines (Service cfg) !! pipelineID = Some pipeline →
     known_kind pipelineID ∧
     ∃ p, pipeline = Some p ∧ references_ok cfg p).
Proof.
  intros cfg Ho. rewrite (Validate_nil_iff _ _ o w Ho).
  fold cfg. unfold config_ok, categories_ok, hooks_pass, extensions_ok.
  rewrite !Forall_map_to_list, Forall_forall, !map_size_non_empty_iff.
  unfold pipeline_ok. simpl. split.
  - intros (((? & Hr) & (? & He) & Hp & Hx) & ? & ? & ?).
    split_and!; try done. intros id c [?|[?|[?|?]]]; eauto.
  - intros ((? & ?) & Hall & ? & ? & ?). split_and!; try done;
      intros id c Hin; apply (Hall id c); tauto.
Qed.

(** X2. A nil pipeline: its kind is tested first, then it is
    dereferenced. When the checks that come first pass and every
    pipeline visited before it is in order, a nil pipeline of a known
    kind makes [Validate] panic, and a nil pipeline of another kind gets
    the error for its kind. *)
Theorem Validate_nil_pipeline o w (pipelineID : ID) :
  let cfg := config_at w in
  ranges o cfg →
  categories_ok ValidateConfig cfg → extensions_ok cfg →
  visited_first cfg o (pipelineID, None) →
  (known_kind pipelineID → (Validate' o w).1 = Panics) ∧
  (¬ known_kind pipelineID →
   (Validate' o w).1
   = Returns (Some (fmt_Errorf "unknown pipeline datatype %q for %v"
       [ArgType (ID_Type pipelineID); ArgID pipelineID]))).
Proof.
  intros cfg Ho Hcat Hexts Hfirst. split; intros Hkind;
    apply Validate_runs_to; (eapply Validate_at_visited; [done..|]).
  - by apply pipeline_nil.
  - by apply pipeline_unknown_kind.
Qed.

(** X3. A pipeline without receivers, or without exporters, gets the
    error that says so and names the pipeline, when the checks that come
    first pass: those on the categories and on the service extensions,
    those of the pipelines visited before, the kind of the pipeline and,
    for the exporters, its receivers and processors. *)
Theorem Validate_empty_pipeline o w (pipelineID : ID)
    (pipeline : config.Pipeline) :
  let cfg := config_at w in
  ranges o cfg → categories_ok ValidateConfig cfg → extensions_ok cfg →
  visited_first cfg o (pipelineID, Some pipeline) →
  known_kind pipelineID →
  (config.Receivers pipeline = [] →
   (Validate' o w).1
   = Returns (Some (fmt_Errorf "pipeline %q must have at least one receiver"
       [ArgID pipelineID]))) ∧
  (config.Receivers pipeline ≠ [] →
   Forall (resolves (Receivers cfg)) (config.Receivers pipeline) →
   Forall (resolves (Processors cfg)) (config.Processors pipeline) →
   NoDup (config.Processors pipeline) →
   config.Exporters pipeline = [] →
   (Validate' o w).1
   = Returns (Some (fmt_Errorf "pipeline %q must have at least one exporter"
       [ArgID pipelineID]))).
Proof.
  intros cfg Ho Hcat Hexts Hfirst Hkind. split.
  - intros Hrs. apply Validate_runs_to.
    eapply Validate_at_visited; [done..|]. by apply pipeline_no_receiver.
  - intros Hne Hrs Hps Hnd Hes. apply Validate_runs_to.
    eapply Validate_at_visited; [done..|]. by apply pipeline_no_exporter.
Qed.

(** The loop over the entries of one category ends the call at the
    first entry whose hook fails. *)
Lemma hooks_first cfg format pre (id : ID) c post err :
  hooks_pass ValidateConfig pre → ValidateConfig c = Some err →
  runs_to (designates cfg)
    (for_range (pre ++ (id, c) :: post) (λ '(id, c) _,
       match ValidateConfig c with
       | Some err =>
           return_ (Some (fmt_Errorf format [ArgID id; ArgErr err]))
       | None => mret tt
       end) tt : stmt' unit)
    (Stop (Returns (Some (fmt_Errorf format [ArgID id; ArgErr err])))).
Proof.
  intros Hpre Hc. apply runs_to_for_range_first.
  - eapply Forall_impl; [exact Hpre|]. intros [id' c'] Hok. simpl in *.
    rewrite Hok. apply runs_to_skip.
  - cbv beta iota. rewrite Hc. apply runs_to_return.
Qed.

(** X4. The first component whose hook fails gets the error that names
    its category and its identity and wraps the error of the hook. The
    categories are checked in the order receivers, exporters,
    processors, extensions, each after the ones before it passed, and
    before anything of the service. *)
Theorem Validate_invalid_component o w pre (id : ID) c post err :
  let cfg := config_at w in
  ranges o cfg →
  ValidateConfig c = Some err → hooks_pass ValidateConfig pre →
  size (Receivers cfg) ≠ 0 →
  (range_Receivers o = pre ++ (id, c) :: post →
   (Validate' o w).1
   = Returns (Some (fmt_Errorf "receiver %q has invalid configuration: %w"
       [ArgID id; ArgErr err]))) ∧
  (hooks_pass ValidateConfig (map_to_list (Receivers cfg)) →
   size (Exporters cfg) ≠ 0 →
   (range_Exporters o = pre ++ (id, c) :: post →
    (Validate' o w).1
    = Returns (Some (fmt_Errorf "exporter %q has invalid configuration: %w"
        [ArgID id; ArgErr err]))) ∧
   (hooks_pass ValidateConfig (map_to_list (Exporters cfg)) →
    (range_Processors o = pre ++ (id, c) :: post →
     (Validate' o w).1
     = Returns (Some (fmt_Errorf
         "processor %q has invalid configuration: %w"
         [ArgID id; ArgErr err]))) ∧
    (hooks_pass ValidateConfig (map_to_list (Processors cfg)) →
     range_Extensions o = pre ++ (id, c) :: post →
     (Validate' o w).1
     = Returns (Some (fmt_Errorf
         "extension %q has invalid configuration: %w"
         [ArgID id; ArgErr err]))))).
Proof.
  intros cfg (Hr & He & Hp & _) Hc Hpre Hsize.
  unfold hooks_pass in *.
  split; [|intros Hrs Hsize'; split; [|intros Hes; split; [|intros Hps]]];
    intros Horder; apply Validate_runs_to; unfold Validate_body;
    (eapply runs_to_bind; [apply runs_to_load|]);
    (eapply runs_to_past;
      [by apply checks_when|by apply size_test|intros _]).
  - apply runs_to_bind_Stop. rewrite Horder. by apply hooks_first.
  - eapply runs_to_past; [apply checks_hooks| |intros _].
    { unfold hooks_pass. by rewrite Hr. }
    eapply runs_to_past; [by apply checks_when|by apply size_test|intros _].
    apply runs_to_bind_Stop. rewrite Horder. by apply hooks_first.
  - eapply runs_to_past; [apply checks_hooks| |intros _].
    { unfold hooks_pass. by rewrite Hr. }
    eapply runs_to_past; [by apply checks_when|by apply size_test|intros _].
    eapply runs_to_past; [apply checks_hooks| |intros _].
    { unfold hooks_pass. by rewrite He. }
    apply runs_to_bind_Stop. rewrite Horder. by apply hooks_first.
  - eapply runs_to_past; [apply checks_hooks| |intros _].
    { unfold hooks_pass. by rewrite Hr. }
    eapply runs_to_past; [by apply checks_when|by apply size_test|intros _].
    eapply runs_to_past; [apply checks_hooks| |intros _].
    { unfold hooks_pass. by rewrite He. }
    eapply runs_to_past; [apply checks_hooks| |intros _].
    { unfold hooks_pass. by rewrite Hp. }
    apply runs_to_bind_Stop. rewrite Horder. by apply hooks_first.
Qed.


(** *** What [Validate] prints *)

Lemma silent_load cfg : silent (designates cfg) (load : stmt' Config).
Proof. intros w Hw. done. Qed.

Lemma silent_hooks cfg format entries :
  silent (designates cfg)
    (for_range entries (λ '(id, c) _,
       match ValidateConfig c with
       | Some err =>
           return_ (Some (fmt_Errorf format [ArgID id; ArgErr err]))
       | None => mret tt
       end) tt : stmt' unit).
Proof.
  apply silent_for_range. intros [id c] [].
  destruct (ValidateConfig c); [apply silent_return|apply silent_skip].
Qed.

Lemma silent_refs cfg (m : gmap ID (option ConfigImpl)) (err : ID → error)
    refs :
  silent (designates cfg)
    (for_range refs (λ ref _,
       when (is_nil (index m ref)) (return_ (Some (err ref)))) tt
     : stmt' unit).
Proof. apply silent_for_range. intros ref []. apply silent_when. Qed.

Lemma silent_processors cfg (pipelineID : ID) refs (procSet : gmap ID bool) :
  silent (designates cfg)
    (for_range refs (λ ref (procSet : gmap ID bool),
       when (is_nil (index (Processors cfg) ref))
         (return_ (Some (fmt_Errorf
            "pipeline %q references processor %q which does not exist"
            [ArgID pipelineID; ArgID ref])));;
       when (bool_decide (is_Some (procSet !! ref)))
         (return_ (Some (fmt_Errorf
            "pipeline %q references processor %q multiple times"
            [ArgID pipelineID; ArgID ref])));;
       mret (<[ref := true]> procSet)) procSet : stmt' (gmap ID bool)).
Proof.
  apply silent_for_range. intros ref set.
  apply silent_bind; [apply silent_when|]. intros _.
  apply silent_bind; [apply silent_when|]. intros _. apply silent_skip.
Qed.

(** With telemetry settings that are valid, an iteration over a pipeline
    prints nothing. *)
Lemma silent_pipeline cfg (pipelineID : ID) pipeline :
  telemetry_Validate (Service.Telemetry (Service cfg)) = None →
  silent (designates cfg)
    (validateService_pipeline telemetry_Validate cfg pipelineID pipeline).
Proof.
  intros Hvalid. unfold validateService_pipeline.
  apply silent_bind; [apply silent_when|]. intros _.
  apply silent_bind; [apply silent_deref|]. intros pl.
  apply silent_bind; [apply silent_when|]. intros _.
  apply silent_bind; [apply silent_refs|]. intros _.
  apply silent_bind; [apply silent_processors|]. intros _.
  apply silent_bind; [apply silent_when|]. intros _.
  apply silent_bind; [apply silent_refs|]. intros _.
  rewrite Hvalid. apply silent_skip.
Qed.

Lemma silent_load_bind {B} cfg (k : Config → stmt' B) :
  silent (designates cfg) (k cfg) → silent (designates cfg) (load ≫= k).
Proof.
  intros Hk w Hw. unfold mbind, stmt_bind, seq, load. rewrite Hw.
  apply Hk, Hw.
Qed.

Lemma silent_Validate_body cfg o :
  telemetry_Validate (Service.Telemetry (Service cfg)) = None →
  silent (designates cfg)
    (Validate_body ValidateConfig telemetry_Validate o).
Proof.
  intros Hvalid. unfold Validate_body. apply silent_load_bind.
  apply silent_bind; [apply silent_when|]. intros _.
  apply silent_bind; [apply silent_hooks|]. intros _.
  apply silent_bind; [apply silent_when|]. intros _.
  do 3 (apply silent_bind; [apply silent_hooks|]; intros _).
  unfold validateService. apply silent_load_bind.
  apply silent_bind; [apply silent_refs|]. intros _.
  apply silent_bind; [apply silent_when|]. intros _.
  apply silent_bind; [|intros _; apply silent_return].
  apply silent_for_range. intros [pipelineID pipeline] [].
  by apply silent_pipeline.
Qed.

(** Past a check that passes and prints nothing. *)
Lemma lands_past {A B} cfg (m : stmt' A) (k : A → stmt' B) P s g :
  checks (designates cfg) refusal m P → P → silent (designates cfg) m →
  (∀ a, lands (designates cfg) (k a) s g) →
  lands (designates cfg) (m ≫= k) s g.
Proof.
  intros Hm HP Hs Hk. destruct (checks_pass _ _ _ _ Hm HP) as [a Ha].
  by apply lands_bind_silent with a.
Qed.

Lemma warned_designates cfg err w :
  designates cfg w → designates cfg (warned err w).
Proof. done. Qed.

Lemma warned_iter err n w :
  Nat.iter n (warned err) w
  = {| config_at := config_at w;
       stdout := stdout w
                 ++ replicate n ("telemetry config validation failed, %v\n",
                                 [ArgErr err]) |}.
Proof.
  induction n as [|n IH]; simpl.
  - rewrite app_nil_r. by destruct w.
  - rewrite IH. unfold warned. simpl. f_equal.
    rewrite <- app_assoc. f_equal.
    change (?x :: replicate n ?x) with (replicate (S n) x).
    by rewrite replicate_S_end.
Qed.

(** With telemetry settings that are not valid, the iteration over a
    pipeline in order prints the warning, once. *)
Lemma lands_pipeline cfg (pipelineID : ID) pipeline err :
  telemetry_Validate (Service.Telemetry (Service cfg)) = Some err →
  pipeline_ok cfg (pipelineID, pipeline) →
  lands (designates cfg)
    (validateService_pipeline telemetry_Validate cfg pipelineID pipeline)
    (Next tt) (warned err).
Proof.
  intros Herr (Hkind & p & Hp & (Hne & Hrs) & (Hps & Hnd) & (Hne' & Hes)).
  simpl in *. subst pipeline. unfold validateService_pipeline.
  eapply lands_past;
    [by apply checks_when|by apply known_kind_test|apply silent_when|].
  intros _. simpl deref.
  eapply lands_bind_silent; [apply runs_to_skip|apply silent_skip|].
  eapply lands_past;
    [by apply checks_when|by apply length_test|apply silent_when|].
  intros _.
  eapply lands_past; [apply checks_refs|done|apply silent_refs|]. intros _.
  eapply lands_past; [apply checks_processors| |apply silent_processors|].
  { split_and!; [done..|]. by apply Forall_forall. }
  intros _.
  eapply lands_past;
    [by apply checks_when|by apply length_test|apply silent_when|].
  intros _.
  eapply lands_past; [apply checks_refs|done|apply silent_refs|]. intros _.
  rewrite Herr. by intros w Hw.
Qed.

Lemma lands_Validate_body cfg o err :
  ranges o cfg → config_ok ValidateConfig cfg →
  telemetry_Validate (Service.Telemetry (Service cfg)) = Some err →
  lands (designates cfg)
    (Validate_body ValidateConfig telemetry_Validate o)
    (Stop (Returns None))
    (Nat.iter (length (range_Pipelines o)) (warned err)).
Proof.
  intros (Hr & He & Hp & Hx & Hs) Hok Herr.
  destruct Hok as (((Hr0 & Hrs) & (He0 & Hes) & Hps & Hxs)
                   & Hexts & Hsize & Hpipes).
  unfold hooks_pass in *. unfold Validate_body.
  eapply lands_bind_silent; [apply runs_to_load|apply silent_load|].
  eapply lands_past;
    [by apply checks_when|by apply size_test|apply silent_when|].
  intros _.
  eapply lands_past; [apply checks_hooks| |apply silent_hooks|].
  { unfold hooks_pass. by rewrite Hr. }
  intros _.
  eapply lands_past;
    [by apply checks_when|by apply size_test|apply silent_when|].
  intros _.
  eapply lands_past; [apply checks_hooks| |apply silent_hooks|].
  { unfold hooks_pass. by rewrite He. }
  intros _.
  eapply lands_past; [apply checks_hooks| |apply silent_hooks|].
  { unfold hooks_pass. by rewrite Hp. }
  intros _.
  eapply lands_past; [apply checks_hooks| |apply silent_hooks|].
  { unfold hooks_pass. by rewrite Hx. }
  intros _. unfold validateService.
  eapply lands_bind_silent; [apply runs_to_load|apply silent_load|].
  eapply lands_past; [apply checks_refs|done|apply silent_refs|]. intros _.
  eapply lands_past;
    [by apply checks_when|by apply size_test|apply silent_when|].
  intros _.
  apply (lands_bind (designates cfg) _ _ tt _
           (Nat.iter (length (range_Pipelines o)) (warned err)) (λ w, w)).
  - apply lands_for_range; [apply warned_designates|].
    intros [pipelineID pipeline] Hin. apply lands_pipeline; [done|].
    rewrite <- Hs in Hpipes. by eapply Forall_forall in Hpipes.
  - intros w Hw. clear -Hw.
    induction (length (range_Pipelines o)); [done|]. by simpl.
  - by intros w Hw.
Qed.

(** With telemetry settings that are not valid, [Validate] does nothing
    to the world but print the warning some number of times, whatever
    it returns. *)
Lemma trails_Validate_body cfg o err :
  telemetry_Validate (Service.Telemetry (Service cfg)) = Some err →
  trails (designates cfg) (warned err)
    (Validate_body ValidateConfig telemetry_Validate o).
Proof.
  intros Herr.
  pose proof (warned_designates cfg err) as Hf.
  assert (∀ B (k : Config → stmt' B),
            trails (designates cfg) (warned err) (k cfg) →
            trails (designates cfg) (warned err) (load ≫= k)) as Hload.
  { intros B k Hk w Hw. unfold mbind, stmt_bind, seq, load. rewrite Hw.
    apply Hk, Hw. }
  unfold Validate_body. apply Hload.
  apply trails_bind; [done|apply trails_silent, silent_when|]. intros _.
  apply trails_bind; [done|apply trails_silent, silent_hooks|]. intros _.
  apply trails_bind; [done|apply trails_silent, silent_when|]. intros _.
  do 3 (apply trails_bind; [done|apply trails_silent, silent_hooks|];
        intros _).
  unfold validateService. apply Hload.
  apply trails_bind; [done|apply trails_silent, silent_refs|]. intros _.
  apply trails_bind; [done|apply trails_silent, silent_when|]. intros _.
  apply trails_bind; [done| |intros _; apply trails_silent, silent_return].
  apply trails_for_range; [done|]. intros [pipelineID pipeline] [].
  unfold validateService_pipeline.
  apply trails_bind; [done|apply trails_silent, silent_when|]. intros _.
  apply trails_bind; [done|apply trails_silent, silent_deref|]. intros pl.
  apply trails_bind; [done|apply trails_silent, silent_when|]. intros _.
  apply trails_bind; [done|apply trails_silent, silent_refs|]. intros _.
  apply trails_bind; [done|apply trails_silent, silent_processors|].
  intros _.
  apply trails_bind; [done|apply trails_silent, silent_when|]. intros _.
  apply trails_bind; [done|apply trails_silent, silent_refs|]. intros _.
  rewrite Herr. intros w Hw. by exists 1.
Qed.

(** C7. The telemetry check never changes what [Validate] returns: two
    calls that visit the maps in the same order, on configurations that
    differ in their telemetry settings at most and with any two telemetry
    hooks, return the same; and a configuration in order is accepted
    whatever the telemetry check finds. A failure of the check is only
    printed: whatever the call returns, it leaves the configuration as it
    was and standard output longer by some number of warnings, nothing
    else; and for a configuration in order the call returns nil and has
    printed the warning once for each pipeline. *)
Theorem Validate_telemetry_soft
    (telemetry_Validate' : TelemetryConfig → option error) o w w' :
  (alike (config_at w) (config_at w') →
   (service.Validate ValidateConfig telemetry_Validate o w).1
   = (service.Validate ValidateConfig telemetry_Validate' o w').1) ∧
  (ranges o (config_at w) → config_ok ValidateConfig (config_at w) →
   (service.Validate ValidateConfig telemetry_Validate o w).1
   = Returns None) ∧
  (∀ err,
     telemetry_Validate (Service.Telemetry (Service (config_at w)))
     = Some err →
     (∃ n,
        (service.Validate ValidateConfig telemetry_Validate o w).2
        = {| config_at := config_at w;
             stdout :=
               stdout w
               ++ replicate n ("telemetry config validation failed, %v\n",
                               [ArgErr err]) |}) ∧
     (ranges o (config_at w) → config_ok ValidateConfig (config_at w) →
      service.Validate ValidateConfig telemetry_Validate o w
      = (Returns None,
         {| config_at := config_at w;
            stdout :=
              stdout w
              ++ replicate
                   (size (Service.Pipelines (Service (config_at w))))
                   ("telemetry config validation failed, %v\n",
                    [ArgErr err]) |}))).
Proof.
  split; [apply Validate_agree|]. split.
  { intros Ho Hok. by apply Validate_nil_iff. }
  intros err Herr. split.
  - destruct (call_trails (designates (config_at w)) (warned err)
                (Validate_body ValidateConfig telemetry_Validate o) w
                eq_refl (trails_Validate_body _ o err Herr)) as [n Hn].
    exists n. unfold service.Validate. by rewrite Hn, warned_iter.
  - intros Ho Hok.
    pose proof (lands_Validate_body _ o err Ho Hok Herr w eq_refl) as H.
    unfold service.Validate, call. rewrite H, warned_iter.
    destruct Ho as (_ & _ & _ & _ & ->). by rewrite length_map_to_list.
Qed.

(** X5. With telemetry settings that are valid, [Validate] changes
    nothing at all: it prints nothing, whatever it returns. With
    telemetry settings that are not valid, a call that accepts the
    configuration has printed the warning once for each pipeline, and
    nothing else. *)
Theorem Validate_prints o w :
  let cfg := config_at w in
  (telemetry_Validate (Service.Telemetry (Service cfg)) = None →
   (Validate' o w).2 = w) ∧
  (ranges o cfg → config_ok ValidateConfig cfg →
   ∀ err,
     telemetry_Validate (Service.Telemetry (Service cfg)) = Some err →
     Validate' o w
     = (Returns None,
        {| config_at := cfg;
           stdout :=
             stdout w
             ++ replicate (size (Service.Pipelines (Service cfg)))
                  ("telemetry config validation failed, %v\n",
                   [ArgErr err]) |})).
Proof.
  intros cfg. split.
  - intros Hvalid. apply (call_silent (designates cfg)); [done|].
    by apply silent_Validate_body.
  - intros Ho Hok err Herr.
    pose proof (lands_Validate_body cfg o err Ho Hok Herr w eq_refl) as H.
    unfold service.Validate, call. rewrite H, warned_iter.
    destruct Ho as (_ & _ & _ & _ & ->). by rewrite length_map_to_list.
Qed.


End ValidatorMore.

(** ** More of the code, on examples *)

Lemma Validate_telemetry_soft_witness :
  (examples.Validate (listed in_order) (with_telemetry false in_order)).1
  = (service.Validate examples.ValidateConfig (λ _, None)
       (listed in_order) in_order).1 ∧
  (examples.Validate (listed in_order) (with_telemetry false in_order)).1
  = Returns None ∧
  stdout (examples.Validate (listed in_order)
            (with_telemetry false in_order)).2
  = [("telemetry config validation failed, %v\n", [ArgErr errTelemetry])].
Proof.
  assert (ranges (listed in_order)
            (config_at (with_telemetry false in_order))) as Ho
    by (repeat split; reflexivity).
  assert (config_ok examples.ValidateConfig
            (config_at (with_telemetry false in_order))) as Hok by run.
  split_and!.
  - apply (proj1 (Validate_telemetry_soft examples.ValidateConfig
                    examples.telemetry_Validate (λ _, None)
                    (listed in_order) (with_telemetry false in_order)
                    in_order)).
    repeat split; reflexivity.
  - exact (proj1 (proj2 (Validate_telemetry_soft examples.ValidateConfig
                           examples.telemetry_Validate (λ _, None)
                           (listed in_order)
                           (with_telemetry false in_order) in_order))
             Ho Hok).
  - pose proof (proj2 (proj2 (proj2 (Validate_telemetry_soft
                  examples.ValidateConfig examples.telemetry_Validate
                  (λ _, None) (listed in_order)
                  (with_telemetry false in_order) in_order))
                  errTelemetry eq_refl) Ho Hok) as H.
    unfold examples.Validate. rewrite H. vm_compute. reflexivity.
Defined.

Lemma Validate_accepts_iff_witness :
  (examples.Validate (listed in_order) in_order).1 = Returns None ∧
  Receivers (config_at in_order) ≠ ∅ ∧
  Service.Pipelines (Service (config_at in_order)) ≠ ∅.
Proof.
  pose proof (proj1 (Validate_accepts_iff examples.ValidateConfig
                       examples.telemetry_Validate (listed in_order)
                       in_order (ranges_listed _)) eq_refl)
    as ((Hr & _) & _ & _ & Hp & _).
  split; [reflexivity|]. split; [exact Hr|exact Hp].
Defined.

Lemma Validate_nil_pipeline_witness :
  (examples.Validate (listed nil_pipeline) nil_pipeline).1 = Panics ∧
  (examples.Validate (listed nil_profiles) nil_profiles).1
  = Returns (Some (fmt_Errorf "unknown pipeline datatype %q for %v"
      [ArgType "profiles"; ArgID profiles])).
Proof.
  split.
  - apply (proj1 (Validate_nil_pipeline examples.ValidateConfig
                    examples.telemetry_Validate (listed nil_pipeline)
                    nil_pipeline traces (ranges_listed _) ltac:(run)
                    ltac:(run) ltac:(first_visited))).
    by left.
  - apply (proj2 (Validate_nil_pipeline examples.ValidateConfig
                    examples.telemetry_Validate (listed nil_profiles)
                    nil_profiles profiles (ranges_listed _) ltac:(run)
                    ltac:(run) ltac:(first_visited))).
    vm_compute. intros [H|[H|H]]; discriminate H.
Defined.

Lemma Validate_empty_pipeline_witness :
  (examples.Validate (listed no_receiver_pipeline) no_receiver_pipeline).1
  = Returns (Some (fmt_Errorf "pipeline %q must have at least one receiver"
      [ArgID traces])) ∧
  (examples.Validate (listed no_exporter_pipeline) no_exporter_pipeline).1
  = Returns (Some (fmt_Errorf "pipeline %q must have at least one exporter"
      [ArgID traces])).
Proof.
  split.
  - apply (proj1 (Validate_empty_pipeline examples.ValidateConfig
                    examples.telemetry_Validate
                    (listed no_receiver_pipeline) no_receiver_pipeline
                    traces
                    {| config.Receivers := [];
                       config.Processors := [];
                       config.Exporters := [otlp] |}
                    (ranges_listed _) ltac:(run) ltac:(run)
                    ltac:(first_visited) (or_introl eq_refl))).
    reflexivity.
  - apply (proj2 (Validate_empty_pipeline examples.ValidateConfig
                    examples.telemetry_Validate
                    (listed no_exporter_pipeline) no_exporter_pipeline
                    traces
                    {| config.Receivers := [otlp];
                       config.Processors := [];
                       config.Exporters := [] |}
                    (ranges_listed _) ltac:(run) ltac:(run)
                    ltac:(first_visited) (or_introl eq_refl))).
    + discriminate.
    + run.
    + run.
    + run.
    + reflexivity.
Defined.

Lemma Validate_invalid_component_witness :
  (examples.Validate (listed rejected_receiver) rejected_receiver).1
  = Returns (Some (fmt_Errorf "receiver %q has invalid configuration: %w"
      [ArgID otlp; ArgErr errRejected])) ∧
  (examples.Validate (listed rejected_exporter) rejected_exporter).1
  = Returns (Some (fmt_Errorf "exporter %q has invalid configuration: %w"
      [ArgID otlp; ArgErr errRejected])).
Proof.
  split.
  - apply (proj1 (Validate_invalid_component examples.ValidateConfig
                    examples.telemetry_Validate (listed rejected_receiver)
                    rejected_receiver [] otlp (Some rejected) [] errRejected
                    (ranges_listed _) eq_refl ltac:(constructor)
                    ltac:(run))).
    reflexivity.
  - apply (proj2 (Validate_invalid_component examples.ValidateConfig
                    examples.telemetry_Validate (listed rejected_exporter)
                    rejected_exporter [] otlp (Some rejected) [] errRejected
                    (ranges_listed _) eq_refl ltac:(constructor)
                    ltac:(run))).
    + run.
    + run.
    + reflexivity.
Defined.

Lemma Validate_prints_witness :
  (examples.Validate (listed in_order) in_order).2 = in_order ∧
  stdout (examples.Validate (listed in_order)
            (with_telemetry false in_order)).2
  = [("telemetry config validation failed, %v\n", [ArgErr errTelemetry])].
Proof.
  split.
  - pose proof (proj1 (Validate_prints examples.ValidateConfig
                         examples.telemetry_Validate (listed in_order)
                         in_order)) as H.
    exact (H eq_refl).
  - pose proof (proj2 (Validate_prints examples.ValidateConfig
                         examples.telemetry_Validate (listed in_order)
                         (with_telemetry false in_order))) as H.
    assert (ranges (listed in_order)
              (config_at (with_telemetry false in_order))) as Ho
      by (repeat split; reflexivity).
    assert (config_ok examples.ValidateConfig
              (config_at (with_telemetry false in_order))) as Hok by run.
    specialize (H Ho Hok errTelemetry eq_refl).
    unfold examples.Validate. rewrite H. vm_compute. reflexivity.
Defined.

Lemma NewReceiverFactory_last_option_witness :
  let before : @receiverFactory unit unit unit unit unit unit
                 unit unit unit unit :=
    NewReceiverFactory "example" tt
      [WithTracesReceiver None StabilityLevelAlpha] in
  let after : @receiverFactory unit unit unit unit unit unit
                unit unit unit unit :=
    NewReceiverFactory "example" tt
      ([WithTracesReceiver None StabilityLevelAlpha]
       ++ [WithTracesReceiver (Some (λ _, (Some tt, None)))
             StabilityLevelBeta]) in
  factory_CreateTracesReceiver errRejected after tt tt tt tt
  = Returns (Some tt, None) ∧
  TracesReceiverStability after = StabilityLevelBeta ∧
  MetricsReceiverStability after = MetricsReceiverStability before.
Proof.
  intros before after.
  destruct (proj1 (@NewReceiverFactory_last_option unit unit unit unit
                     unit unit unit unit unit unit errRejected "example" tt
                     [WithTracesReceiver None StabilityLevelAlpha]
                     StabilityLevelBeta
                     ltac:(repeat constructor; eexists; constructor))
              (Some (λ _, (Some tt, None))))
    as (Hc & Hs & _ & Hm & _).
  split; [unfold after; by rewrite Hc|]. split; [exact Hs|exact Hm].
Defined.

Lemma NewReceiverFactory_options_commute_witness :
  let new :=
    @NewReceiverFactory unit unit unit unit unit unit
      unit unit unit unit "example" tt in
  new ([WithLogsReceiver None StabilityLevelAlpha]
       ++ [WithTracesReceiver None StabilityLevelBeta;
           WithMetricsReceiver None StabilityLevelStable])
  = new ([WithLogsReceiver None StabilityLevelAlpha]
         ++ [WithMetricsReceiver None StabilityLevelStable;
             WithTracesReceiver None StabilityLevelBeta]).
Proof.
  intros new.
  exact (proj1 (@NewReceiverFactory_options_commute unit unit unit unit
                  unit unit unit unit unit unit "example" tt
                  [WithLogsReceiver None StabilityLevelAlpha]
                  None None None StabilityLevelBeta StabilityLevelStable
                  StabilityLevelAlpha
                  ltac:(repeat constructor; eexists; constructor))).
Defined.

Lemma NewReceiverFactory_unset_kind_witness :
  let factory : @receiverFactory unit unit unit unit unit unit
                  unit unit unit unit :=
    NewReceiverFactory "example" tt
      [WithMetricsReceiver (Some (λ _, (Some tt, None)))
         StabilityLevelStable;
       WithLogsReceiver None StabilityLevelBeta] in
  receiver.embedded_baseFactory factory
  = {| cfgType := "example"; createDefaultConfig := tt |} ∧
  TracesReceiverStability factory = StabilityLevelUndefined ∧
  factory_CreateTracesReceiver errRejected factory tt tt tt tt
  = Returns (None, Some errRejected).
Proof.
  intros factory.
  pose proof (@NewReceiverFactory_unset_kind unit unit unit unit unit unit
                unit unit unit unit errRejected "example" tt
                [WithMetricsReceiver (Some (λ _, (Some tt, None)))
                   StabilityLevelStable;
                 WithLogsReceiver None StabilityLevelBeta])
    as (Hbase & Htraces & _).
  split.
  - apply Hbase. repeat constructor; eexists; constructor.
  - destruct Htraces as [Hs Hc].
    + constructor; [left; constructor|].
      constructor; [right; constructor|constructor].
    + split; [exact Hs|apply Hc].
Defined.

Lemma NewClient_offered_witness :
  ∃ a : @defaultClient unit unit unit unit,
    NewClient [WithClientStart (Some (λ _, Some errRejected));
               WithPerRPCCredentials (Some (λ _, (Some tt, None)))]
    = Returns a ∧
    Start a tt tt ≠ Panics ∧ PerRPCCredentials_ a ≠ Panics.
Proof.
  destruct (@NewClient_offered unit unit unit unit
              [WithClientStart (Some (λ _ : unit * unit, Some errRejected));
               WithPerRPCCredentials
                 (Some (λ _ : unit, (Some tt, @None error)))]
              ltac:(repeat constructor))
    as (a & Ha & Hs & _ & _ & Hc).
  exists a. split; [exact Ha|]. split; [apply Hs|exact Hc].
Defined.

Lemma NewClient_last_option_witness :
  ∃ a : @defaultClient unit unit unit unit,
    NewClient [WithClientStart None] = Returns a ∧
    Start a tt tt = Panics ∧ Shutdown a tt = Returns None.
Proof.
  destruct (proj1 (@NewClient_last_option unit unit unit unit []
                     {| embedded_StartFunc := Some (λ _, None);
                        embedded_ShutdownFunc := Some (λ _, None);
                        roundTripperFunc := Some (λ base, (base, None));
                        perRPCCredentialsFunc := Some (λ _, (None, None)) |}
                     eq_refl) None)
    as (a & Ha & Hs & Hd & _).
  exists a. split; [exact Ha|]. split; [apply Hs|by rewrite Hd].
Defined.
